(** * Plex summary updater: a shallow embedding of [main.py]

    The program walks the movie and show sections of a Plex library, resolves
    each item against TMDB (by TMDB id when the item carries one, by title
    search otherwise) and rewrites the item's summary when TMDB's overview
    differs from it.

    The embedding follows [main.py] function by function.  Calls that leave
    the program (the HTTP session, the Plex server) are answered by a
    [World]; every call is recorded in the [State], so that "one write",
    "no search call" and "no new transport call" are statements about logs.
    Python exceptions are values of [exn]; code that can raise lives in the
    monad [M], a state monad over [Result]. *)

From Stdlib Require Import String Ascii List ZArith Lia Bool Permutation Sorted DecimalString.
Import ListNotations.
Open Scope string_scope.

(** ** Python strings *)

Module PyStr.

(** [sub in s] *)
Fixpoint contains (sub s : string) : bool :=
  prefix sub s ||
  match s with
  | EmptyString => false
  | String _ s' => contains sub s'
  end.

(** [s.replace(old, new)] for a non-empty [old]: occurrences are replaced
    from left to right and never overlap.  [skip] counts the characters of a
    matched occurrence that are still to be dropped. *)
Fixpoint replace_from (old new : string) (skip : nat) (s : string) : string :=
  match s with
  | EmptyString => EmptyString
  | String c s' =>
      match skip with
      | S k => replace_from old new k s'
      | O =>
          if prefix old s
          then new ++ replace_from old new (String.length old - 1) s'
          else String c (replace_from old new 0 s')
      end
  end.

Definition replace (old new s : string) : string := replace_from old new 0 s.

(** [str(n)] for an integer *)
Definition of_Z (n : Z) : string := NilZero.string_of_int (Z.to_int n).

(** [repr(s)] for a string without quotes, backslashes or control
    characters: the string between single quotes. *)
Definition repr (s : string) : string := "'" ++ s ++ "'".

(** [s1 < s2]: comparison by code point, which on UTF-8 bytes is the
    byte-wise lexicographic order. *)
Definition ltb (s1 s2 : string) : bool := String.ltb s1 s2.

End PyStr.

(** ** Exceptions ([exceptions.py] and the built-in ones the code can meet) *)

Inductive exn : Type :=
| RequestException (msg : string)   (* requests.RequestException and its subclasses *)
| TMDBError (msg : string)
| PlexError (msg : string)
| ConfigError (msg : string)
| KeyError (key : string)
| TypeError (msg : string)
| AttributeError (msg : string)
| ValueError (msg : string)
| OtherException (cls msg : string). (* any other subclass of Exception *)

(** [str(e)] *)
Definition str (e : exn) : string :=
  match e with
  | RequestException m | TMDBError m | PlexError m | ConfigError m
  | TypeError m | AttributeError m | ValueError m | OtherException _ m => m
  | KeyError k => PyStr.repr k
  end.

(** [isinstance(e, requests.RequestException)] *)
Definition is_RequestException (e : exn) : bool :=
  match e with RequestException _ => true | _ => false end.

Inductive Result (A : Type) : Type :=
| Ok (a : A)
| Raise (e : exn).
Arguments Ok {A} a.
Arguments Raise {A} e.

(** ** JSON values, as [response.json()] returns them *)

#[local] Set Warnings "-register-all".

Inductive json : Type :=
| JNull                                  (* None *)
| JBool (b : bool)
| JNum (n : Z)
| JStr (s : string)
| JList (l : list json)
| JObj (fields : list (string * json)).  (* dict: the first binding of a key counts *)

Fixpoint assoc {A : Type} (k : string) (l : list (string * A)) : option A :=
  match l with
  | [] => None
  | (k', v) :: l' => if String.eqb k' k then Some v else assoc k l'
  end.

Module Py.

(** Truth value of an object, as [if not x] tests it. *)
Definition truthy (v : json) : bool :=
  match v with
  | JNull => false
  | JBool b => b
  | JNum n => negb (n =? 0)%Z
  | JStr s => negb (s =? "")
  | JList l => match l with [] => false | _ => true end
  | JObj f => match f with [] => false | _ => true end
  end.

(** [v[key]] for a string key. *)
Definition getitem (v : json) (key : string) : Result json :=
  match v with
  | JObj f =>
      match assoc key f with
      | Some x => Ok x
      | None => Raise (KeyError key)
      end
  | JList _ => Raise (TypeError "list indices must be integers or slices, not str")
  | JStr _ => Raise (TypeError "string indices must be integers, not 'str'")
  | JNum _ => Raise (TypeError "'int' object is not subscriptable")
  | JBool _ => Raise (TypeError "'bool' object is not subscriptable")
  | JNull => Raise (TypeError "'NoneType' object is not subscriptable")
  end.

(** [v.get(key, default)] *)
Definition get (v : json) (key : string) (default : json) : Result json :=
  match v with
  | JObj f =>
      match assoc key f with
      | Some x => Ok x
      | None => Ok default
      end
  | JList _ => Raise (AttributeError "'list' object has no attribute 'get'")
  | JStr _ => Raise (AttributeError "'str' object has no attribute 'get'")
  | JNum _ => Raise (AttributeError "'int' object has no attribute 'get'")
  | JBool _ => Raise (AttributeError "'bool' object has no attribute 'get'")
  | JNull => Raise (AttributeError "'NoneType' object has no attribute 'get'")
  end.

(** [next(iter(v), None)] *)
Definition next_iter (v : json) : Result json :=
  match v with
  | JList l => Ok (match l with [] => JNull | x :: _ => x end)
  | JObj f => Ok (match f with [] => JNull | (k, _) :: _ => JStr k end)
  | JStr s =>
      Ok (match s with
          | EmptyString => JNull
          | String c _ => JStr (String c EmptyString)
          end)
  | JNum _ => Raise (TypeError "'int' object is not iterable")
  | JBool _ => Raise (TypeError "'bool' object is not iterable")
  | JNull => Raise (TypeError "'NoneType' object is not iterable")
  end.

(** [summary != v] for a string [summary]: a string differs from every
    object that is not an equal string. *)
Definition str_ne (summary : string) (v : json) : bool :=
  match v with
  | JStr s => negb (summary =? s)
  | _ => true
  end.

End Py.

(** ** The data of the program *)

(** [config.py] *)
Record Config : Type := mkConfig {
  plex_url : string;
  plex_token : string;
  tmdb_api_key : string;
  max_workers : Z;
  verify_ssl : bool;
  tmdb_base_url : string
}.

(** [Config(plex_url=..., plex_token=..., tmdb_api_key=...)] with the defaults
    of the dataclass. *)
Definition Config_defaults (url token key : string) : Config :=
  mkConfig url token key 10 false "https://api.themoviedb.org/3".

(** What the program reads of a Plex movie or show.  [guids] holds the [id]
    of each guid; [year] is [None] when Plex has no year for the item. *)
Record MediaItem : Type := mkItem {
  ratingKey : Z;
  title : string;
  type : string;
  year : option Z;
  guids : list string;
  summary : string
}.

(** A section of the library.  [section_all] is what [section.all()] gives
    when the program calls it: the items, or the exception it raises. *)
Record LibrarySection : Type := mkSection {
  section_title : string;
  section_type : string;
  section_all : exn + list MediaItem
}.

(** The server object that [PlexServer(url, token)] returns.
    [library_sections] is what [plex.library.sections()] gives when the
    program calls it: the sections, or the exception it raises. *)
Record Server : Type := mkServer {
  library_sections : exn + list LibrarySection
}.

Definition UpdateResult : Type := (string * string)%type.

(** A value of a request parameter: the callers pass strings, integers and
    [None]; all three are hashable. *)
Inductive pvalue : Type :=
| PNone
| PInt (n : Z)
| PStr (s : string).

Definition pvalue_eqb (a b : pvalue) : bool :=
  match a, b with
  | PNone, PNone => true
  | PInt x, PInt y => (x =? y)%Z
  | PStr x, PStr y => (x =? y)
  | _, _ => false
  end.

Definition params_t : Type := list (string * pvalue).

Fixpoint params_eqb (a b : params_t) : bool :=
  match a, b with
  | [], [] => true
  | (k, v) :: a', (k', v') :: b' => (k =? k') && pvalue_eqb v v' && params_eqb a' b'
  | _, _ => false
  end.

(** One call of [session.get(url, params=..., verify=..., **kwargs)]. *)
Record http_call : Type := mkCall {
  call_url : string;
  call_params : params_t;
  call_verify : bool;
  call_kwargs : list (string * string)
}.

Record response : Type := mkResponse {
  status_code : Z;
  reason : string;
  response_url : string; (* [response.url]: the URL of the request, query string included *)
  body : exn + json      (* what [response.json()] raises or returns *)
}.

(** [requests.Session]: the parameters that the session adds to every
    request. *)
Record Session : Type := mkSession {
  session_params : params_t
}.

(** One call of [make_tmdb_request(endpoint, params=..., **kwargs)]. *)
Record request : Type := mkRequest {
  req_endpoint : string;
  req_params : params_t;
  req_kwargs : list (string * string)
}.

(** The key of the [lru_cache] entry: [(endpoint, param_items)].  (The key
    also holds [self]; the program builds one updater.) *)
Definition cache_key : Type := (string * params_t)%type.

Definition key_eqb (a b : cache_key) : bool :=
  (fst a =? fst b) && params_eqb (snd a) (snd b).

(** ** The world outside the program

    [session_get n c] answers the [n]-th transport call, where [c] is the
    request as it is sent (the parameters of the session merged in, the
    parameters without value left out); [plex_edit n i v]
    is [None] when the [n]-th write returns and [Some e] when it raises [e];
    [plex_connect n url token] answers the [n]-th [PlexServer(url, token)];
    [as_completed l] is the order in which the pool finishes the items [l]. *)
Record World : Type := mkWorld {
  session_get : nat -> http_call -> exn + response;
  plex_edit : nat -> MediaItem -> json -> option exn;
  plex_connect : nat -> option string -> option string -> exn + Server;
  as_completed : list MediaItem -> list MediaItem
}.

(** ** The state of a run

    [cache] is the [lru_cache] of [_make_tmdb_request_cached], the most
    recently used entry first.  The logs grow at the head: [http_log] holds
    the calls of [session.get] with the arguments the program gives,
    [sent_log] the requests as they are sent. *)
Record State : Type := mkState {
  cache : list (cache_key * json);
  http_log : list http_call;
  edit_log : list (MediaItem * json);
  request_log : list request;
  connect_count : nat;
  results_log : list (string * nat * nat);
  sent_log : list http_call
}.

Definition initial_state : State := mkState [] [] [] [] 0 [] [].

Definition set_cache (c : list (cache_key * json)) (s : State) : State :=
  mkState c (http_log s) (edit_log s) (request_log s) (connect_count s) (results_log s)
          (sent_log s).

(** ** The monad of effects *)

Definition M (A : Type) : Type := State -> Result A * State.

Definition ret {A} (a : A) : M A := fun s => (Ok a, s).

Definition raise {A} (e : exn) : M A := fun s => (Raise e, s).

Definition bind {A B} (c : M A) (k : A -> M B) : M B :=
  fun s =>
    match c s with
    | (Ok a, s') => k a s'
    | (Raise e, s') => (Raise e, s')
    end.

Definition lift {A} (r : Result A) : M A := fun s => (r, s).

(** [try: c  except <class> as e: h e]: exceptions that [catches] rejects
    go through. *)
Definition try_except {A} (catches : exn -> bool) (c : M A) (h : exn -> M A) : M A :=
  fun s =>
    match c s with
    | (Ok a, s') => (Ok a, s')
    | (Raise e, s') => if catches e then h e s' else (Raise e, s')
    end.

(** [except Exception]: every [exn] is an [Exception]. *)
Definition any_Exception (e : exn) : bool := true.

Declare Scope py_scope.
Delimit Scope py_scope with py.
Notation "x <- c ;; k" := (bind c (fun x => k))
  (at level 61, c at next level, right associativity) : py_scope.
Notation "c ;; k" := (bind c (fun _ => k))
  (at level 61, right associativity) : py_scope.
Open Scope py_scope.

(** ** The LRU cache of [functools.lru_cache(maxsize=1024)] *)

Definition maxsize : nat := 1024.

Fixpoint cache_get (k : cache_key) (c : list (cache_key * json)) : option json :=
  match c with
  | [] => None
  | (k', v) :: c' => if key_eqb k' k then Some v else cache_get k c'
  end.

Definition cache_remove (k : cache_key) (c : list (cache_key * json)) :=
  filter (fun e => negb (key_eqb (fst e) k)) c.

(** A hit moves the entry to the most recently used end. *)
Definition cache_touch (k : cache_key) (v : json) (c : list (cache_key * json)) :=
  (k, v) :: cache_remove k c.

(** A miss stores the new entry; a full cache first drops its least
    recently used entry. *)
Definition cache_put (k : cache_key) (v : json) (c : list (cache_key * json)) :=
  (k, v) :: (if (maxsize <=? length c)%nat then removelast c else c).

(** [lru_cache] around [f]: results are stored, exceptions are not. *)
Definition lru_cache (f : cache_key -> M json) (k : cache_key) : M json :=
  fun s =>
    match cache_get k (cache s) with
    | Some v => (Ok v, set_cache (cache_touch k v (cache s)) s)
    | None =>
        match f k s with
        | (Ok v, s') => (Ok v, set_cache (cache_put k v (cache s')) s')
        | (Raise e, s') => (Raise e, s')
        end
    end.

(** ** Sorting the parameters: [sorted(params.items())]

    The keys of a dict are distinct, so two items always differ in their
    keys and the values are never compared. *)
Fixpoint insert_item (x : string * pvalue) (l : params_t) : params_t :=
  match l with
  | [] => [x]
  | y :: l' => if PyStr.ltb (fst y) (fst x) then y :: insert_item x l' else x :: l
  end.

Fixpoint sorted_items (l : params_t) : params_t :=
  match l with
  | [] => []
  | x :: l' => insert_item x (sorted_items l')
  end.

(** ** [requests]: the parameters of the request that is sent

    [Session.prepare_request] merges the parameters of the call into those
    of the session ([merge_setting]): the session's come first, a key of the
    call replaces the same key of the session where it stands, and the keys
    whose value is [None] are deleted. *)

(** [d[k] = v] on an ordered dict *)
Fixpoint dict_set (k : string) (v : pvalue) (d : params_t) : params_t :=
  match d with
  | [] => [(k, v)]
  | (k', v') :: d' => if k' =? k then (k, v) :: d' else (k', v') :: dict_set k v d'
  end.

(** [d.update(items)] *)
Definition dict_update (d items : params_t) : params_t :=
  fold_left (fun acc kv => dict_set (fst kv) (snd kv) acc) items d.

Definition is_None (v : pvalue) : bool :=
  match v with PNone => true | _ => false end.

Definition merge_setting (request_setting session_setting : params_t) : params_t :=
  filter (fun kv => negb (is_None (snd kv))) (dict_update session_setting request_setting).

Definition prepare_request (session : Session) (c : http_call) : http_call :=
  mkCall (call_url c) (merge_setting (call_params c) (session_params session))
         (call_verify c) (call_kwargs c).

(** ** [requests]: status check of a response

    The message of the [HTTPError] names [response.url]. *)

Definition http_error_msg (r : response) : string :=
  PyStr.of_Z (status_code r)
  ++ (if (status_code r <? 500)%Z then " Client Error: " else " Server Error: ")
  ++ reason r ++ " for url: " ++ response_url r.

(** [response.raise_for_status()] *)
Definition raise_for_status (r : response) : Result unit :=
  if ((400 <=? status_code r) && (status_code r <? 600))%Z
  then Raise (RequestException (http_error_msg r))
  else Ok tt.

(** [response.json()] *)
Definition response_json (r : response) : Result json :=
  match body r with
  | inl e => Raise e
  | inr v => Ok v
  end.

Section Updater.

Variable W : World.

(** ** Calls that leave the program *)

(** [session.get(url, params=params, verify=verify, **kwargs)]: a keyword
    given twice is a [TypeError] before the call is made; otherwise the
    request is prepared and sent. *)
Definition session_get_call (session : Session) (url : string) (params : params_t)
    (verify : bool) (kwargs : list (string * string)) : M response :=
  fun s =>
    match assoc "verify" kwargs with
    | Some _ =>
        (Raise (TypeError "get() got multiple values for keyword argument 'verify'"), s)
    | None =>
        let c := mkCall url params verify kwargs in
        let s' := mkState (cache s) (c :: http_log s) (edit_log s) (request_log s)
                          (connect_count s) (results_log s)
                          (prepare_request session c :: sent_log s) in
        match session_get W (length (http_log s)) (prepare_request session c) with
        | inl e => (Raise e, s')
        | inr r => (Ok r, s')
        end
    end.

(** [media_item.edit] with the keyword [summary.value] set to [v] *)
Definition edit_summary (media_item : MediaItem) (v : json) : M unit :=
  fun s =>
    let s' := mkState (cache s) (http_log s) ((media_item, v) :: edit_log s)
                      (request_log s) (connect_count s) (results_log s) (sent_log s) in
    match plex_edit W (length (edit_log s)) media_item v with
    | Some e => (Raise e, s')
    | None => (Ok tt, s')
    end.

(** [PlexServer(url, token)] *)
Definition PlexServer (url token : option string) : M Server :=
  fun s =>
    let s' := mkState (cache s) (http_log s) (edit_log s) (request_log s)
                      (S (connect_count s)) (results_log s) (sent_log s) in
    match plex_connect W (connect_count s) url token with
    | inl e => (Raise e, s')
    | inr server => (Ok server, s')
    end.

(** ** [class PlexSummaryUpdater] *)

Record PlexSummaryUpdater : Type := mkUpdater {
  config : Config;
  plex : Server;
  session : Session
}.

Variable self : PlexSummaryUpdater.

(** The body of [_make_tmdb_request_cached], without its decorator. *)
Definition _make_tmdb_request_cached__wrapped (k : cache_key) : M json :=
  let '(endpoint, param_items) := k in
  try_except is_RequestException
    (let url := tmdb_base_url (config self) ++ "/" ++ endpoint in
     let params := param_items in
     response <- session_get_call (session self) url params (verify_ssl (config self)) [] ;;
     lift (raise_for_status response) ;;
     lift (response_json response))
    (fun e => raise (TMDBError ("TMDB API request failed: " ++ str e))).

Definition _make_tmdb_request_cached (endpoint : string) (param_items : params_t) : M json :=
  lru_cache _make_tmdb_request_cached__wrapped (endpoint, param_items).

(** The call itself is recorded in [request_log] first. *)
Definition record_request (r : request) : M unit :=
  fun s =>
    (Ok tt, mkState (cache s) (http_log s) (edit_log s) (r :: request_log s)
                    (connect_count s) (results_log s) (sent_log s)).

(** [make_tmdb_request(endpoint, params=params, **kwargs)]; [params] is [{}]
    when the caller gives none. *)
Definition make_tmdb_request (endpoint : string) (params : params_t)
    (kwargs : list (string * string)) : M json :=
  record_request (mkRequest endpoint params kwargs) ;;
  match kwargs with
  | _ :: _ =>
      try_except is_RequestException
        (let url := tmdb_base_url (config self) ++ "/" ++ endpoint in
         response <- session_get_call (session self) url params
                                      (verify_ssl (config self)) kwargs ;;
         lift (raise_for_status response) ;;
         lift (response_json response))
        (fun e => raise (TMDBError ("TMDB API request failed: " ++ str e)))
  | [] =>
      let param_items := sorted_items params in
      _make_tmdb_request_cached endpoint param_items
  end.

(** [_get_tmdb_id]: [None] when no guid mentions tmdb *)
Fixpoint _get_tmdb_id_loop (gs : list string) : option string :=
  match gs with
  | [] => None
  | guid_id :: gs' =>
      if PyStr.contains "tmdb" guid_id
      then Some (PyStr.replace "tmdb://" "" guid_id)
      else _get_tmdb_id_loop gs'
  end.

Definition _get_tmdb_id (media_item : MediaItem) : option string :=
  _get_tmdb_id_loop (guids media_item).

Definition media_type_of (media_item : MediaItem) : string :=
  if type media_item =? "movie" then "movie" else "tv".

Definition year_value (media_item : MediaItem) : pvalue :=
  match year media_item with
  | Some y => PInt y
  | None => PNone
  end.

Definition _search_tmdb (media_item : MediaItem) : M json :=
  let media_type := media_type_of media_item in
  let params := [("query", PStr (title media_item)); ("year", year_value media_item)] in
  response <- make_tmdb_request ("search/" ++ media_type) params [] ;;
  if negb (Py.truthy response) then ret JNull
  else
    results <- lift (Py.get response "results" (JList [])) ;;
    lift (Py.next_iter results).

(** [if not tmdb_id]: [None] and the empty string both take the search. *)
Definition _get_tmdb_data (media_item : MediaItem) : M json :=
  match _get_tmdb_id media_item with
  | None => _search_tmdb media_item
  | Some tmdb_id =>
      if tmdb_id =? "" then _search_tmdb media_item
      else
        let media_type := media_type_of media_item in
        make_tmdb_request (media_type ++ "/" ++ tmdb_id) [] []
  end.

(** The [try] block of [_update_item]. *)
Definition _update_item_try (media_item : MediaItem) : M UpdateResult :=
  tmdb_data <- _get_tmdb_data media_item ;;
  if negb (Py.truthy tmdb_data) then ret (title media_item, "No TMDB match found")
  else
    overview <- lift (Py.getitem tmdb_data "overview") ;;
    if Py.str_ne (summary media_item) overview then
      overview' <- lift (Py.getitem tmdb_data "overview") ;;
      edit_summary media_item overview' ;;
      ret (title media_item, "Updated")
    else ret (title media_item, "No change needed").

Definition _update_item (media_item : MediaItem) : M UpdateResult :=
  try_except any_Exception
    (_update_item_try media_item)
    (fun e => ret (title media_item, "Error: " ++ str e)).

End Updater.

(** ** Sections and the whole library *)

Section Library.

Variable W : World.
Variable self : PlexSummaryUpdater.

(** The pool: one [_update_item] per item.  The workers are taken to run
    one after the other, in the order in which they complete; the list holds
    what each future then yields, a result or an exception. *)
Fixpoint run_workers (completed : list MediaItem) (s : State)
    : list (Result UpdateResult) * State :=
  match completed with
  | [] => ([], s)
  | item :: rest =>
      let '(r, s1) := _update_item W self item s in
      let '(rs, s2) := run_workers rest s1 in
      (r :: rs, s2)
  end.

(** The loop over [futures.as_completed]: a result is appended, an
    exception of [future.result()] is logged and the future skipped. *)
Fixpoint collect_results (futs : list (Result UpdateResult)) : list UpdateResult :=
  match futs with
  | [] => []
  | Ok result :: futs' => result :: collect_results futs'
  | Raise _ :: futs' => collect_results futs'
  end.

Definition _process_section (section : LibrarySection) : M (list UpdateResult) :=
  fun s =>
    match section_all section with
    | inl e => (Raise e, s)
    | inr media_items =>
        if (max_workers (config self) <=? 0)%Z
        then (Raise (ValueError "max_workers must be greater than 0"), s)
        else
          let '(futs, s') := run_workers (as_completed W media_items) s in
          (Ok (collect_results futs), s')
    end.

(** [_log_results]: the counts of the logged line (the percentage is a
    float computed from them and is left out). *)
Definition count_updated (results : list UpdateResult) : nat :=
  length (filter (fun r => snd r =? "Updated") results).

Definition _log_results (section_title : string) (results : list UpdateResult) : M unit :=
  fun s =>
    let total := length results in
    let updated := count_updated results in
    (Ok tt, mkState (cache s) (http_log s) (edit_log s) (request_log s) (connect_count s)
                    ((section_title, updated, total) :: results_log s) (sent_log s)).

Fixpoint update_library_loop (sections : list LibrarySection) : M unit :=
  match sections with
  | [] => ret tt
  | section :: rest =>
      if negb ((section_type section =? "movie") || (section_type section =? "show"))
      then update_library_loop rest
      else
        results <- _process_section section ;;
        match results with
        | [] => update_library_loop rest
        | _ :: _ =>
            _log_results (section_title section) results ;;
            update_library_loop rest
        end
  end.

(** [self.plex.library.sections()] is called once, before the loop. *)
Definition update_library : M unit :=
  sections <- lift (match library_sections (plex self) with
                    | inl e => Raise e
                    | inr sections => Ok sections
                    end) ;;
  update_library_loop sections.

End Library.

(** ** Construction of the updater *)

Section Startup.

Variable W : World.

(** [not getattr(self.config, field)]: a missing string is the empty one. *)
Definition missing_fields (cfg : Config) : list string :=
  map fst
    (filter (fun f => snd f =? "")
       [("plex_url", plex_url cfg); ("plex_token", plex_token cfg);
        ("tmdb_api_key", tmdb_api_key cfg)]).

(** [', '.join(l)] *)
Fixpoint join_comma (l : list string) : string :=
  match l with
  | [] => ""
  | [x] => x
  | x :: l' => x ++ ", " ++ join_comma l'
  end.

Definition _validate_config (cfg : Config) : M unit :=
  match missing_fields cfg with
  | [] => ret tt
  | missing => raise (ConfigError ("Missing required configuration: " ++ join_comma missing))
  end.

Definition _init_plex (cfg : Config) : M Server :=
  try_except any_Exception
    (PlexServer W (Some (plex_url cfg)) (Some (plex_token cfg)))
    (fun e => raise (PlexError ("Failed to connect to Plex: " ++ str e))).

(** [session.params = {"api_key": self.config.tmdb_api_key}] *)
Definition _init_tmdb_session (cfg : Config) : Session :=
  mkSession [("api_key", PStr (tmdb_api_key cfg))].

(** [PlexSummaryUpdater(config)] *)
Definition PlexSummaryUpdater__init__ (cfg : Config) : M PlexSummaryUpdater :=
  _validate_config cfg ;;
  plex <- _init_plex cfg ;;
  ret (mkUpdater cfg plex (_init_tmdb_session cfg)).

(** ** The process *)

(** The environment after [load_dotenv()]. *)
Record Env : Type := mkEnv {
  PLEX_URL : option string;
  PLEX_TOKEN : option string;
  TMDB_API_KEY : option string
}.

(** [os.getenv(name, "")] *)
Definition getenv_default (v : option string) : string :=
  match v with
  | Some x => x
  | None => ""
  end.

(** How the interpreter ends: normally, by [SystemExit(msg)], or by an
    exception nobody caught. *)
Inductive exit_status : Type :=
| ExitNormally
| SystemExit (msg : string)
| Uncaught (e : exn).

Definition exit_code (x : exit_status) : Z :=
  match x with
  | ExitNormally => 0
  | SystemExit _ => 1
  | Uncaught _ => 1
  end.

Definition class_name (e : exn) : string :=
  match e with
  | RequestException _ => "requests.exceptions.RequestException"
  | TMDBError _ => "exceptions.TMDBError"
  | PlexError _ => "exceptions.PlexError"
  | ConfigError _ => "exceptions.ConfigError"
  | KeyError _ => "KeyError"
  | TypeError _ => "TypeError"
  | AttributeError _ => "AttributeError"
  | ValueError _ => "ValueError"
  | OtherException cls _ => cls
  end.

Definition newline : string := String (ascii_of_nat 10) EmptyString.

(** What the interpreter prints when it ends: the argument of [SystemExit],
    or the traceback of the uncaught exception (its frames left out). *)
Definition exit_message (x : exit_status) : string :=
  match x with
  | ExitNormally => ""
  | SystemExit msg => msg
  | Uncaught e =>
      "Traceback (most recent call last):" ++ newline ++ class_name e ++ ": " ++ str e
  end.

(** The body of [main()] inside its [try]. *)
Definition main_body (env : Env) : M unit :=
  let cfg := Config_defaults (getenv_default (PLEX_URL env))
                             (getenv_default (PLEX_TOKEN env))
                             (getenv_default (TMDB_API_KEY env)) in
  updater <- PlexSummaryUpdater__init__ cfg ;;
  update_library W updater.

Definition main (env : Env) (s : State) : exit_status * State :=
  match main_body env s with
  | (Ok _, s') => (ExitNormally, s')
  | (Raise e, s') => (SystemExit ("Error: " ++ str e), s')
  end.

(** Running [main.py]: the module is executed first, with its
    [plex = PlexServer(PLEX_URL, PLEX_TOKEN)] outside any [try], then
    [main()]. *)
Definition run_script (env : Env) (s : State) : exit_status * State :=
  match PlexServer W (PLEX_URL env) (PLEX_TOKEN env) s with
  | (Raise e, s') => (Uncaught e, s')
  | (Ok _, s') => main env s'
  end.

End Startup.

(** ** Sequences of requests *)

(** The requests [rs] issued one after the other; an exception of one of
    them goes to its caller and the next request is issued all the same. *)
Fixpoint run_requests (W : World) (self : PlexSummaryUpdater) (rs : list request)
    (s : State) : State :=
  match rs with
  | [] => s
  | r :: rs' =>
      run_requests W self rs'
        (snd (make_tmdb_request W self (req_endpoint r) (req_params r) (req_kwargs r) s))
  end.

(** [cached_at k v n c]: the cache [c] holds [v] for the key [k], with at
    most [n] entries used more recently. *)
Definition cached_at (k : cache_key) (v : json) (n : nat)
    (c : list (cache_key * json)) : Prop :=
  exists l1 l2,
    c = (l1 ++ (k, v) :: l2)%list
    /\ (length l1 <= n)%nat
    /\ forall e, In e l1 -> fst e <> k.

(** ** Sections that [update_library] processes *)

(** [section.type in ("movie", "show")] *)
Definition supported (section : LibrarySection) : bool :=
  (section_type section =? "movie") || (section_type section =? "show").

(** The items of a section whose enumeration returns. *)
Definition items_of (section : LibrarySection) : list MediaItem :=
  match section_all section with
  | inl _ => []
  | inr media_items => media_items
  end.

(** The sections for which a line is logged: the supported ones that hold
    an item. *)
Definition logged_sections (sections : list LibrarySection) : list LibrarySection :=
  filter (fun section =>
            supported section
            && match items_of section with [] => false | _ => true end)
         sections.

(** [readable section]: when the section is one that [update_library]
    processes, its enumeration returns. *)
Definition readable (section : LibrarySection) : Prop :=
  supported section = true -> exists media_items, section_all section = inr media_items.

(** The writes of a pool, newest first: [written] tells, for each worker in
    the order of completion, the value it has written to its item, if any. *)
Fixpoint writes_of (completed : list MediaItem) (written : list (option json))
    : list (MediaItem * json) :=
  match completed, written with
  | item :: completed', Some v :: written' => (writes_of completed' written' ++ [(item, v)])%list
  | _ :: completed', None :: written' => writes_of completed' written'
  | _, _ => []
  end.

(** The item as Plex holds it once the summary [text] has been written. *)
Definition with_summary (media_item : MediaItem) (text : string) : MediaItem :=
  mkItem (ratingKey media_item) (title media_item) (type media_item) (year media_item)
         (guids media_item) text.

(** The names of the required fields that are empty, in the order of the
    list [required]. *)
Definition empty_required (cfg : Config) : list string :=
  ((if plex_url cfg =? "" then ["plex_url"] else [])
   ++ (if plex_token cfg =? "" then ["plex_token"] else [])
   ++ (if tmdb_api_key cfg =? "" then ["tmdb_api_key"] else []))%list.

(** ** The two kinds of request that resolution issues *)

(** [make_tmdb_request(f"{media_type}/{tmdb_id}")] *)
Definition lookup_call (media_item : MediaItem) (tmdb_id : string) : request :=
  mkRequest (media_type_of media_item ++ "/" ++ tmdb_id) [] [].

(** [make_tmdb_request(f"search/{media_type}", params=params)] *)
Definition search_call (media_item : MediaItem) : request :=
  mkRequest ("search/" ++ media_type_of media_item)
            [("query", PStr (title media_item)); ("year", year_value media_item)] [].

Definition is_search (r : request) : bool := prefix "search/" (req_endpoint r).

(** ** Worlds and items used in the examples *)

Module Fixtures.

(** The URL of a request that is sent: the query string after the URL of
    the call (the values need no escaping but for the space). *)
Definition plus_for_space (v : string) : string :=
  PyStr.replace " " "+" v.

Definition encode_value (v : pvalue) : string :=
  match v with
  | PNone => ""
  | PInt n => PyStr.of_Z n
  | PStr x => plus_for_space x
  end.

Fixpoint query_string (params : params_t) : string :=
  match params with
  | [] => ""
  | [(k, v)] => k ++ "=" ++ encode_value v
  | (k, v) :: rest => k ++ "=" ++ encode_value v ++ "&" ++ query_string rest
  end.

Definition url_of (c : http_call) : string :=
  match call_params c with
  | [] => call_url c
  | params => call_url c ++ "?" ++ query_string params
  end.

Definition ok_response (c : http_call) (v : json) : exn + response :=
  inr (mkResponse 200 "OK" (url_of c) (inr v)).

(** A server with no section. *)
Definition empty_server : Server := mkServer (inr []).

Definition matrix_record : json :=
  JObj [("id", JNum 603); ("overview", JStr "A hacker learns the truth.")].

(** TMDB answers every call with [matrix_record]; Plex accepts every write. *)
Definition world_record : World :=
  mkWorld (fun _ c => ok_response c matrix_record)
          (fun _ _ _ => None)
          (fun _ _ _ => inr empty_server)
          (fun l => l).

(** TMDB answers every call with a record that has no overview. *)
Definition world_no_overview : World :=
  mkWorld (fun _ c => ok_response c (JObj [("id", JNum 603)]))
          (fun _ _ _ => None)
          (fun _ _ _ => inr empty_server)
          (fun l => l).

(** TMDB answers every call with an empty list of search results. *)
Definition world_no_results : World :=
  mkWorld (fun _ c => ok_response c (JObj [("page", JNum 1); ("results", JList [])]))
          (fun _ _ _ => None)
          (fun _ _ _ => inr empty_server)
          (fun l => l).

(** TMDB answers every call with 404. *)
Definition not_found (c : http_call) : response :=
  mkResponse 404 "Not Found" (url_of c)
             (inr (JObj [("success", JBool false); ("status_code", JNum 34)])).

Definition world_not_found : World :=
  mkWorld (fun _ c => inr (not_found c))
          (fun _ _ _ => None)
          (fun _ _ _ => inr empty_server)
          (fun l => l).

(** Plex refuses every write. *)
Definition world_read_only : World :=
  mkWorld (fun _ c => ok_response c matrix_record)
          (fun _ _ _ => Some (OtherException "plexapi.exceptions.BadRequest" "(400) bad_request"))
          (fun _ _ _ => inr empty_server)
          (fun l => l).

(** The Plex server cannot be reached. *)
Definition world_unreachable : World :=
  mkWorld (fun _ c => ok_response c matrix_record)
          (fun _ _ _ => None)
          (fun _ _ _ => inl (OtherException "requests.exceptions.ConnectionError"
                                            "Connection refused"))
          (fun l => l).

(** The pool finishes the items in the reverse of their order. *)
Definition world_reversed : World :=
  mkWorld (fun _ c => ok_response c matrix_record)
          (fun _ _ _ => None)
          (fun _ _ _ => inr empty_server)
          (@rev MediaItem).

Definition updater : PlexSummaryUpdater :=
  mkUpdater (Config_defaults "http://plex:32400" "token" "key") empty_server
            (_init_tmdb_session (Config_defaults "http://plex:32400" "token" "key")).

Definition matrix_stale : MediaItem :=
  mkItem 1 "The Matrix" "movie" (Some 1999%Z) ["imdb://tt0133093"; "tmdb://603"]
         "An old summary.".

Definition matrix_fresh : MediaItem :=
  mkItem 1 "The Matrix" "movie" (Some 1999%Z) ["imdb://tt0133093"; "tmdb://603"]
         "A hacker learns the truth.".

Definition home_video : MediaItem :=
  mkItem 2 "Holiday 2019" "show" None [] "".

(** The first connection to Plex succeeds, the later ones fail. *)
Definition world_flaky : World :=
  mkWorld (fun _ c => ok_response c matrix_record)
          (fun _ _ _ => None)
          (fun n _ _ =>
             match n with
             | O => inr empty_server
             | S _ => inl (OtherException "requests.exceptions.ConnectionError"
                                          "Connection refused")
             end)
          (fun l => l).

(** TMDB answers every call with a JSON array. *)
Definition world_array : World :=
  mkWorld (fun _ c => ok_response c (JList [JNum 1]))
          (fun _ _ _ => None)
          (fun _ _ _ => inr empty_server)
          (fun l => l).

(** TMDB cannot be reached. *)
Definition world_offline : World :=
  mkWorld (fun _ _ => inl (RequestException "Connection timed out"))
          (fun _ _ _ => None)
          (fun _ _ _ => inr empty_server)
          (fun l => l).

Definition photos : LibrarySection :=
  mkSection "Photos" "photo" (inr []).

(** All three variables are set. *)
Definition env_complete : Env :=
  mkEnv (Some "http://plex:32400") (Some "token") (Some "key").

(** The TMDB key is missing. *)
Definition env_no_key : Env :=
  mkEnv (Some "http://plex:32400") (Some "token") None.

(** The lookups of the movies [1] to [n]. *)
Definition numbered_lookups (n : nat) : list request :=
  map (fun i => mkRequest ("movie/" ++ PyStr.of_Z (Z.of_nat i)) [] []) (seq 1 n).

Definition lookup_0 : request := mkRequest "movie/0" [] [].

(** The lookup of movie 0; then 1024 other lookups; then movie 0 again. *)
Definition after_first : State :=
  run_requests world_record updater [lookup_0] initial_state.

Definition after_others : State :=
  run_requests world_record updater (numbered_lookups 1024) after_first.

Definition after_repeat : State :=
  run_requests world_record updater [lookup_0] after_others.

Definition movies : LibrarySection :=
  mkSection "Movies" "movie" (inr [matrix_fresh; matrix_stale; home_video]).

(** Plex holds the section [movies]; TMDB cannot be reached. *)
Definition world_tmdb_down : World :=
  mkWorld (fun _ _ => inl (RequestException "Connection timed out"))
          (fun _ _ _ => None)
          (fun _ _ _ => inr (mkServer (inr [movies])))
          (fun l => l).

(** A section of shows that Plex fails to enumerate. *)
Definition shows_unreadable : LibrarySection :=
  mkSection "Shows" "show"
            (inl (OtherException "requests.exceptions.ReadTimeout" "Read timed out")).

(** Plex holds [movies] and [shows_unreadable]. *)
Definition world_unreadable_section : World :=
  mkWorld (fun _ c => ok_response c matrix_record)
          (fun _ _ _ => None)
          (fun _ _ _ => inr (mkServer (inr [movies; shows_unreadable])))
          (fun l => l).

(** Plex fails to list its sections. *)
Definition world_unlisted : World :=
  mkWorld (fun _ c => ok_response c matrix_record)
          (fun _ _ _ => None)
          (fun _ _ _ =>
             inr (mkServer (inl (OtherException "requests.exceptions.ReadTimeout"
                                                "Read timed out"))))
          (fun l => l).

End Fixtures.

(** ** What a computation leaves alone *)

(** [keeps f c]: running [c] does not change the component [f] of the state. *)
Definition keeps {A B : Type} (f : State -> B) (c : M A) : Prop :=
  forall s, f (snd (c s)) = f s.

(** What [_search_tmdb] makes of the response of its request. *)
Definition first_result (response : json) : Result json :=
  if negb (Py.truthy response) then Ok JNull
  else
    match Py.get response "results" (JList []) with
    | Ok results => Py.next_iter results
    | Raise e => Raise e
    end.

(** [ignores_io f]: the component [f] of the state does not depend on the
    cache nor on the logs of transport calls, writes and requests. *)
Definition ignores_io {B : Type} (f : State -> B) : Prop :=
  forall c h e r t s, f (mkState c h e r (connect_count s) (results_log s) t) = f s.

(** * Properties *)

Section Keeps.

Context {B : Type} (f : State -> B).

Lemma keeps_ret {A} (a : A) : keeps f (ret a).
Proof. intros s. reflexivity. Qed.

Lemma keeps_raise {A} (e : exn) : keeps f (@raise A e).
Proof. intros s. reflexivity. Qed.

Lemma keeps_lift {A} (r : Result A) : keeps f (lift r).
Proof. intros s. reflexivity. Qed.

Lemma keeps_bind {A C} (c : M A) (k : A -> M C) :
  keeps f c -> (forall a, keeps f (k a)) -> keeps f (bind c k).
Proof.
  intros Hc Hk s. unfold bind.
  specialize (Hc s). destruct (c s) as [[a | e] s1]; simpl in *.
  - rewrite Hk. exact Hc.
  - exact Hc.
Qed.

Lemma keeps_try_except {A} (catches : exn -> bool) (c : M A) (h : exn -> M A) :
  keeps f c -> (forall e, keeps f (h e)) -> keeps f (try_except catches c h).
Proof.
  intros Hc Hh s. unfold try_except.
  specialize (Hc s). destruct (c s) as [[a | e] s1]; simpl in *.
  - exact Hc.
  - destruct (catches e); simpl.
    + rewrite Hh. exact Hc.
    + exact Hc.
Qed.

Lemma keeps_lru_cache (g : cache_key -> M json) (k : cache_key) :
  (forall c s, f (set_cache c s) = f s) ->
  (forall k', keeps f (g k')) -> keeps f (lru_cache g k).
Proof.
  intros Hset Hg s. unfold lru_cache.
  destruct (cache_get k (cache s)) as [v | ]; simpl.
  - apply Hset.
  - specialize (Hg k s). destruct (g k s) as [[v | e] s1]; simpl in *.
    + rewrite Hset. exact Hg.
    + exact Hg.
Qed.

End Keeps.

Create HintDb keeps.
#[local] Hint Resolve keeps_ret keeps_raise keeps_lift : keeps.

Section Frames.

Variable W : World.
Variable self : PlexSummaryUpdater.

Lemma session_get_call_keeps_cache sess url params verify kwargs :
  keeps cache (session_get_call W sess url params verify kwargs).
Proof.
  intros s. unfold session_get_call.
  destruct (assoc "verify" kwargs); [reflexivity | ].
  destruct (session_get W _ _); reflexivity.
Qed.

Lemma session_get_call_keeps_edit_log sess url params verify kwargs :
  keeps edit_log (session_get_call W sess url params verify kwargs).
Proof.
  intros s. unfold session_get_call.
  destruct (assoc "verify" kwargs); [reflexivity | ].
  destruct (session_get W _ _); reflexivity.
Qed.

Lemma session_get_call_keeps_request_log sess url params verify kwargs :
  keeps request_log (session_get_call W sess url params verify kwargs).
Proof.
  intros s. unfold session_get_call.
  destruct (assoc "verify" kwargs); [reflexivity | ].
  destruct (session_get W _ _); reflexivity.
Qed.

(** The HTTP exchange shared by the cached and the uncached path. *)
Lemma exchange_keeps {B} (f : State -> B) sess url params verify kwargs :
  keeps f (session_get_call W sess url params verify kwargs) ->
  keeps f
    (try_except is_RequestException
       (response <- session_get_call W sess url params verify kwargs ;;
        lift (raise_for_status response) ;;
        lift (response_json response))
       (fun e => raise (TMDBError ("TMDB API request failed: " ++ str e)))).
Proof.
  intros H. apply keeps_try_except.
  - apply keeps_bind; [exact H | intros r].
    apply keeps_bind; auto with keeps.
  - auto with keeps.
Qed.

Lemma wrapped_keeps_cache k : keeps cache (_make_tmdb_request_cached__wrapped W self k).
Proof.
  destruct k as [endpoint param_items]. unfold _make_tmdb_request_cached__wrapped.
  apply exchange_keeps, session_get_call_keeps_cache.
Qed.

Lemma wrapped_keeps_edit_log k : keeps edit_log (_make_tmdb_request_cached__wrapped W self k).
Proof.
  destruct k as [endpoint param_items]. unfold _make_tmdb_request_cached__wrapped.
  apply exchange_keeps, session_get_call_keeps_edit_log.
Qed.

Lemma wrapped_keeps_request_log k :
  keeps request_log (_make_tmdb_request_cached__wrapped W self k).
Proof.
  destruct k as [endpoint param_items]. unfold _make_tmdb_request_cached__wrapped.
  apply exchange_keeps, session_get_call_keeps_request_log.
Qed.

Lemma make_tmdb_request_keeps_edit_log endpoint params kwargs :
  keeps edit_log (make_tmdb_request W self endpoint params kwargs).
Proof.
  unfold make_tmdb_request. apply keeps_bind.
  - intros s. reflexivity.
  - intros _. destruct kwargs as [ | kw kwargs].
    + apply keeps_lru_cache; [reflexivity | apply wrapped_keeps_edit_log].
    + apply exchange_keeps, session_get_call_keeps_edit_log.
Qed.

(** Every call of [make_tmdb_request] adds itself, and nothing else, to the
    log of requests. *)
Lemma make_tmdb_request_request_log endpoint params kwargs s :
  request_log (snd (make_tmdb_request W self endpoint params kwargs s))
  = mkRequest endpoint params kwargs :: request_log s.
Proof.
  unfold make_tmdb_request, bind, record_request.
  set (s0 := mkState _ _ _ _ _ _ _).
  change (mkRequest endpoint params kwargs :: request_log s) with (request_log s0).
  destruct kwargs as [ | kw kwargs].
  - apply (keeps_lru_cache request_log); [reflexivity | apply wrapped_keeps_request_log].
  - apply (exchange_keeps request_log), session_get_call_keeps_request_log.
Qed.

Lemma _search_tmdb_keeps_edit_log item : keeps edit_log (_search_tmdb W self item).
Proof.
  unfold _search_tmdb. apply keeps_bind.
  - apply make_tmdb_request_keeps_edit_log.
  - intros r. destruct (negb (Py.truthy r)); auto with keeps.
    apply keeps_bind; auto with keeps.
Qed.

Lemma _get_tmdb_data_keeps_edit_log item : keeps edit_log (_get_tmdb_data W self item).
Proof.
  unfold _get_tmdb_data. destruct (_get_tmdb_id item) as [tmdb_id | ].
  - destruct (tmdb_id =? "").
    + apply _search_tmdb_keeps_edit_log.
    + apply make_tmdb_request_keeps_edit_log.
  - apply _search_tmdb_keeps_edit_log.
Qed.

End Frames.

(** ** Reconciliation of one item *)

Section Reconcile.

Variable W : World.
Variable self : PlexSummaryUpdater.

(** A string differs from an object exactly when the object is not that string. *)
Lemma str_ne_false summary v : Py.str_ne summary v = false <-> v = JStr summary.
Proof.
  destruct v; simpl; try (split; [discriminate | discriminate]).
  rewrite negb_false_iff, String.eqb_eq. split.
  - intros ->. reflexivity.
  - intros H. injection H as ->. reflexivity.
Qed.

Lemma str_ne_true summary v : Py.str_ne summary v = true <-> v <> JStr summary.
Proof.
  rewrite <- str_ne_false. destruct (Py.str_ne summary v); split; congruence.
Qed.

(** [_update_item] turns whatever its [try] block raises into an outcome. *)
Lemma _update_item_of_raise item s e s' :
  _update_item_try W self item s = (Raise e, s') ->
  _update_item W self item s = (Ok (title item, "Error: " ++ str e), s').
Proof.
  intros H. unfold _update_item, try_except. rewrite H. reflexivity.
Qed.

Lemma _update_item_of_ok item s r s' :
  _update_item_try W self item s = (Ok r, s') ->
  _update_item W self item s = (Ok r, s').
Proof.
  intros H. unfold _update_item, try_except. rewrite H. reflexivity.
Qed.

(** The [try] block returns the title with a label, whenever it returns. *)
Lemma _update_item_try_title item s r s' :
  _update_item_try W self item s = (Ok r, s') -> fst r = title item.
Proof.
  unfold _update_item_try, bind, lift, ret, edit_summary.
  destruct (_get_tmdb_data W self item s) as [[data | e] s1]; [ | discriminate].
  destruct (negb (Py.truthy data)).
  - intros H. injection H as <- _. reflexivity.
  - destruct (Py.getitem data "overview") as [ov | e]; [ | discriminate].
    destruct (Py.str_ne (summary item) ov).
    + destruct (plex_edit W _ item ov); [discriminate | ].
      intros H. injection H as <- _. reflexivity.
    + intros H. injection H as <- _. reflexivity.
Qed.

Lemma _update_item_total item s :
  exists outcome s', _update_item W self item s = (Ok (title item, outcome), s').
Proof.
  destruct (_update_item_try W self item s) as [[r | e] s1] eqn:H.
  - exists (snd r), s1. rewrite (_update_item_of_ok _ _ _ _ H).
    rewrite <- (_update_item_try_title _ _ _ _ H). destruct r; reflexivity.
  - exists ("Error: " ++ str e), s1. apply _update_item_of_raise, H.
Qed.

(** The three stages of the [try] block, when they raise. *)
Lemma try_raises_in_resolution item s e s1 :
  _get_tmdb_data W self item s = (Raise e, s1) ->
  _update_item_try W self item s = (Raise e, s1).
Proof.
  intros H. unfold _update_item_try, bind. rewrite H. reflexivity.
Qed.

Lemma try_raises_in_comparison item s data e s1 :
  _get_tmdb_data W self item s = (Ok data, s1) ->
  Py.truthy data = true ->
  Py.getitem data "overview" = Raise e ->
  _update_item_try W self item s = (Raise e, s1).
Proof.
  intros H Ht Hg. unfold _update_item_try, bind, lift. rewrite H, Ht, Hg. reflexivity.
Qed.

Lemma try_raises_in_write item s data ov e s1 :
  _get_tmdb_data W self item s = (Ok data, s1) ->
  Py.truthy data = true ->
  Py.getitem data "overview" = Ok ov ->
  ov <> JStr (summary item) ->
  plex_edit W (length (edit_log s1)) item ov = Some e ->
  exists s2, _update_item_try W self item s = (Raise e, s2)
             /\ edit_log s2 = (item, ov) :: edit_log s.
Proof.
  intros H Ht Hg Hne He. apply str_ne_true in Hne.
  unfold _update_item_try, bind, lift, edit_summary. rewrite H, Ht, Hg. simpl.
  rewrite Hne, He. eexists. split; [reflexivity | ]. simpl.
  pose proof (_get_tmdb_data_keeps_edit_log W self item s) as K.
  rewrite H in K. simpl in K. rewrite K. reflexivity.
Qed.

End Reconcile.

Import Fixtures.

(** C1. When resolution returns a record with an overview: an overview equal
    to the item's summary gives "No change needed" and no write; a differing
    overview gives exactly one write, of that overview to that item, and,
    the write returning, the outcome "Updated". *)
Theorem C1_record_compared_then_written :
  forall W self item s fields desc s1,
    _get_tmdb_data W self item s = (Ok (JObj fields), s1) ->
    assoc "overview" fields = Some desc ->
    (desc = JStr (summary item) ->
       _update_item W self item s = (Ok (title item, "No change needed"), s1)
       /\ edit_log s1 = edit_log s)
    /\
    (desc <> JStr (summary item) ->
       plex_edit W (length (edit_log s)) item desc = None ->
       exists s2,
         _update_item W self item s = (Ok (title item, "Updated"), s2)
         /\ edit_log s2 = (item, desc) :: edit_log s).
Proof.
  intros W self item s fields desc s1 Hres Hov.
  assert (Ht : Py.truthy (JObj fields) = true)
    by (destruct fields; [discriminate Hov | reflexivity]).
  assert (Hg : Py.getitem (JObj fields) "overview" = Ok desc)
    by (simpl; rewrite Hov; reflexivity).
  pose proof (_get_tmdb_data_keeps_edit_log W self item s) as K.
  rewrite Hres in K. simpl in K.
  split.
  - intros Heq. split; [ | exact K].
    apply _update_item_of_ok.
    unfold _update_item_try, bind, lift. rewrite Hres, Ht, Hg. simpl.
    apply str_ne_false in Heq. rewrite Heq. reflexivity.
  - intros Hne Hw. rewrite <- K in Hw.
    eexists. split.
    + apply _update_item_of_ok.
      unfold _update_item_try, bind, lift, edit_summary. rewrite Hres, Ht, Hg.
      simpl. apply str_ne_true in Hne. rewrite Hne, Hw. reflexivity.
    + simpl. rewrite K. reflexivity.
Qed.

Lemma C1_record_compared_then_written_witness :
  fst (_update_item world_record updater matrix_fresh initial_state)
    = Ok ("The Matrix", "No change needed")
  /\ fst (_update_item world_record updater matrix_stale initial_state)
    = Ok ("The Matrix", "Updated")
  /\ length (edit_log (snd (_update_item world_record updater matrix_stale initial_state))) = 1%nat.
Proof.
  split; [ | split].
  - destruct (C1_record_compared_then_written world_record updater matrix_fresh
                initial_state _ _ _ eq_refl eq_refl) as [Hsame _].
    destruct (Hsame eq_refl) as [Hrun _]. rewrite Hrun. reflexivity.
  - destruct (C1_record_compared_then_written world_record updater matrix_stale
                initial_state _ _ _ eq_refl eq_refl) as [_ Hdiff].
    destruct Hdiff as [s2 [Hrun _]]; [discriminate | reflexivity | ].
    rewrite Hrun. reflexivity.
  - destruct (C1_record_compared_then_written world_record updater matrix_stale
                initial_state _ _ _ eq_refl eq_refl) as [_ Hdiff].
    destruct Hdiff as [s2 [Hrun Hlog]]; [discriminate | reflexivity | ].
    rewrite Hrun. simpl. rewrite Hlog. reflexivity.
Defined.

(** C3, as the code has it.  When resolution returns no record ([None], or
    any object that counts as false), the outcome is exactly
    "No TMDB match found" and nothing is written. *)
Theorem C3_no_record_no_tmdb_match :
  forall W self item s data s1,
    _get_tmdb_data W self item s = (Ok data, s1) ->
    Py.truthy data = false ->
    _update_item W self item s = (Ok (title item, "No TMDB match found"), s1)
    /\ edit_log s1 = edit_log s.
Proof.
  intros W self item s data s1 Hres Hf. split.
  - apply _update_item_of_ok. unfold _update_item_try, bind.
    rewrite Hres, Hf. reflexivity.
  - pose proof (_get_tmdb_data_keeps_edit_log W self item s) as K.
    rewrite Hres in K. exact K.
Qed.

Lemma C3_no_record_no_tmdb_match_witness :
  fst (_update_item world_no_results updater home_video initial_state)
    = Ok ("Holiday 2019", "No TMDB match found")
  /\ edit_log (snd (_update_item world_no_results updater home_video initial_state)) = [].
Proof.
  destruct (C3_no_record_no_tmdb_match world_no_results updater home_video
              initial_state JNull _ eq_refl eq_refl) as [Hrun Hlog].
  rewrite Hrun. split; [reflexivity | exact Hlog].
Defined.

(** C3 as stated fails: resolution returns [None] for an item without guids
    whose search finds nothing, and the label is not "No match found". *)
Lemma C3_label_counterexample :
  fst (_get_tmdb_data world_no_results updater home_video initial_state) = Ok JNull
  /\ fst (_update_item world_no_results updater home_video initial_state)
     <> Ok ("Holiday 2019", "No match found").
Proof.
  split; [reflexivity | discriminate].
Qed.

(** ** The pool of a section *)

(** Every future of the pool holds a result, for the items in the order in
    which they complete. *)
Lemma run_workers_spec W self completed :
  forall s, exists outcomes,
    fst (run_workers W self completed s)
    = map Ok (combine (map title completed) outcomes)
    /\ length outcomes = length completed.
Proof.
  induction completed as [ | item rest IH]; intros s.
  - exists []. split; reflexivity.
  - simpl. destruct (_update_item_total W self item s) as [outcome [s1 H1]].
    rewrite H1. destruct (IH s1) as [outcomes [Hrest Hlen]].
    destruct (run_workers W self rest s1) as [rs s2]. simpl in *.
    exists (outcome :: outcomes). split.
    + simpl. rewrite Hrest. reflexivity.
    + simpl. rewrite Hlen. reflexivity.
Qed.

Lemma collect_results_map_Ok rs : collect_results (map Ok rs) = rs.
Proof.
  induction rs as [ | r rs IH]; simpl; [reflexivity | rewrite IH; reflexivity].
Qed.

Lemma map_fst_combine {A B} (l : list A) (l' : list B) :
  length l' = length l -> map fst (combine l l') = l.
Proof.
  revert l'. induction l as [ | a l IH]; intros [ | b l'] H; simpl in *;
    try reflexivity; try discriminate.
  rewrite IH; [reflexivity | lia].
Qed.

(** C4. [_update_item] never raises: whatever the item and the state, it
    returns the title with an outcome.  An exception raised while resolving,
    while comparing or while writing becomes the outcome "Error: " followed
    by its message; so every future of the pool holds a result and no item
    stops the others. *)
Theorem C4_worker_catches_every_exception :
  forall W self item s,
    (exists outcome s', _update_item W self item s = (Ok (title item, outcome), s'))
    /\ (forall e s1,
          _get_tmdb_data W self item s = (Raise e, s1) ->
          _update_item W self item s = (Ok (title item, "Error: " ++ str e), s1))
    /\ (forall data e s1,
          _get_tmdb_data W self item s = (Ok data, s1) ->
          Py.truthy data = true ->
          Py.getitem data "overview" = Raise e ->
          _update_item W self item s = (Ok (title item, "Error: " ++ str e), s1))
    /\ (forall data ov e s1,
          _get_tmdb_data W self item s = (Ok data, s1) ->
          Py.truthy data = true ->
          Py.getitem data "overview" = Ok ov ->
          ov <> JStr (summary item) ->
          plex_edit W (length (edit_log s1)) item ov = Some e ->
          fst (_update_item W self item s) = Ok (title item, "Error: " ++ str e))
    /\ (forall e s1,
          _update_item_try W self item s = (Raise e, s1) ->
          _update_item W self item s = (Ok (title item, "Error: " ++ str e), s1))
    /\ (forall items,
          Forall (fun fut => exists r, fut = Ok r) (fst (run_workers W self items s))).
Proof.
  intros W self item s. repeat split.
  - apply _update_item_total.
  - intros e s1 H. apply _update_item_of_raise, try_raises_in_resolution, H.
  - intros data e s1 H Ht Hg.
    apply _update_item_of_raise. exact (try_raises_in_comparison _ _ _ _ _ _ _ H Ht Hg).
  - intros data ov e s1 H Ht Hg Hne He.
    destruct (try_raises_in_write _ _ _ _ _ _ _ _ H Ht Hg Hne He) as [s2 [Hr _]].
    rewrite (_update_item_of_raise _ _ _ _ _ _ Hr). reflexivity.
  - intros e s1 H. apply _update_item_of_raise, H.
  - intros items. destruct (run_workers_spec W self items s) as [outcomes [-> _]].
    apply Forall_forall. intros fut Hin. apply in_map_iff in Hin.
    destruct Hin as [r [<- _]]. exists r. reflexivity.
Qed.

(** The three stages do raise in some worlds, and the outcome is the message. *)
Example worker_error_in_resolution :
  fst (_update_item world_not_found updater matrix_stale initial_state)
  = Ok ("The Matrix",
        "Error: TMDB API request failed: 404 Client Error: Not Found for url: https://api.themoviedb.org/3/movie/603?api_key=key").
Proof. reflexivity. Qed.

Example worker_error_in_comparison :
  fst (_update_item world_no_overview updater matrix_stale initial_state)
  = Ok ("The Matrix", "Error: 'overview'").
Proof. reflexivity. Qed.

Example worker_error_in_write :
  fst (_update_item world_read_only updater matrix_stale initial_state)
  = Ok ("The Matrix", "Error: (400) bad_request").
Proof. reflexivity. Qed.

(** C10. A record that is not empty and has no "overview" makes the lookup
    of the key raise [KeyError]; the outcome is "Error: 'overview'", which
    begins with "Error: " and is none of the other labels, and nothing is
    written. *)
Theorem C10_record_without_overview_is_error :
  forall W self item s fields s1,
    _get_tmdb_data W self item s = (Ok (JObj fields), s1) ->
    fields <> [] ->
    assoc "overview" fields = None ->
    exists outcome,
      _update_item W self item s = (Ok (title item, outcome), s1)
      /\ outcome = "Error: " ++ str (KeyError "overview")
      /\ prefix "Error: " outcome = true
      /\ outcome <> "No match found"
      /\ outcome <> "No TMDB match found"
      /\ outcome <> "Updated"
      /\ outcome <> "No change needed"
      /\ edit_log s1 = edit_log s.
Proof.
  intros W self item s fields s1 Hres Hne Hov.
  exists ("Error: " ++ str (KeyError "overview")).
  split; [ | repeat split; try discriminate].
  - apply _update_item_of_raise.
    apply (try_raises_in_comparison _ _ _ _ (JObj fields)); [exact Hres | | ].
    + destruct fields; [contradiction | reflexivity].
    + simpl. rewrite Hov. reflexivity.
  - pose proof (_get_tmdb_data_keeps_edit_log W self item s) as K.
    rewrite Hres in K. exact K.
Qed.

Lemma C10_record_without_overview_is_error_witness :
  fst (_update_item world_no_overview updater matrix_stale initial_state)
  = Ok ("The Matrix", "Error: 'overview'").
Proof.
  destruct (C10_record_without_overview_is_error world_no_overview updater matrix_stale
              initial_state [("id", JNum 603)] _ eq_refl) as [outcome [Hrun [-> _]]].
  - discriminate.
  - reflexivity.
  - rewrite Hrun. reflexivity.
Defined.

(** C6. A section whose items are enumerated as [media_items] and whose
    pool can be built ([max_workers] positive) returns one result per item:
    the results are the titles of the items, in the order in which the items
    complete, each with one outcome. *)
Theorem C6_one_result_per_item :
  forall W self section media_items s,
    section_all section = inr media_items ->
    (0 < max_workers (config self))%Z ->
    Permutation (as_completed W media_items) media_items ->
    exists results s',
      _process_section W self section s = (Ok results, s')
      /\ length results = length media_items
      /\ map fst results = map title (as_completed W media_items)
      /\ Permutation (map fst results) (map title media_items).
Proof.
  intros W self section media_items s Hall Hpos Hperm.
  unfold _process_section. rewrite Hall.
  destruct (Z.leb_spec (max_workers (config self)) 0) as [Hle | _]; [lia | ].
  destruct (run_workers_spec W self (as_completed W media_items) s)
    as [outcomes [Hfuts Hlen]].
  destruct (run_workers W self (as_completed W media_items) s) as [futs s'].
  simpl in Hfuts. subst futs.
  exists (combine (map title (as_completed W media_items)) outcomes), s'.
  rewrite collect_results_map_Ok.
  assert (Hfst : map fst (combine (map title (as_completed W media_items)) outcomes)
                 = map title (as_completed W media_items))
    by (apply map_fst_combine; rewrite length_map; exact Hlen).
  repeat split.
  - unfold UpdateResult. rewrite length_combine, length_map, Hlen, Nat.min_id.
    apply Permutation_length, Hperm.
  - exact Hfst.
  - rewrite Hfst. apply Permutation_map, Hperm.
Qed.

Lemma C6_one_result_per_item_witness :
  exists results s',
    _process_section world_reversed updater movies initial_state = (Ok results, s')
    /\ length results = 3%nat.
Proof.
  destruct (C6_one_result_per_item world_reversed updater movies
              [matrix_fresh; matrix_stale; home_video] initial_state)
    as [results [s' [Hrun [Hlen _]]]].
  - reflexivity.
  - reflexivity.
  - apply Permutation_sym, Permutation_rev.
  - exists results, s'. split; [exact Hrun | exact Hlen].
Defined.

(** ** Resolution *)

Section Resolution.

Variable W : World.
Variable self : PlexSummaryUpdater.

Lemma _get_tmdb_id_loop_none gs :
  (forall x, In x gs -> PyStr.contains "tmdb" x = false) ->
  _get_tmdb_id_loop gs = None.
Proof.
  induction gs as [ | g gs IH]; intros H; simpl; [reflexivity | ].
  rewrite (H g (or_introl eq_refl)). apply IH.
  intros x Hx. apply H. right. exact Hx.
Qed.

(** The first guid that mentions tmdb decides. *)
Lemma _get_tmdb_id_loop_first pre g post :
  (forall x, In x pre -> PyStr.contains "tmdb" x = false) ->
  PyStr.contains "tmdb" g = true ->
  _get_tmdb_id_loop (pre ++ g :: post) = Some (PyStr.replace "tmdb://" "" g).
Proof.
  induction pre as [ | p pre IH]; intros Hpre Hg; simpl.
  - rewrite Hg. reflexivity.
  - rewrite (Hpre p (or_introl eq_refl)). apply IH; [ | exact Hg].
    intros x Hx. apply Hpre. right. exact Hx.
Qed.

Lemma _search_tmdb_request_log item s :
  request_log (snd (_search_tmdb W self item s)) = search_call item :: request_log s.
Proof.
  unfold _search_tmdb, bind.
  pose proof (make_tmdb_request_request_log W self ("search/" ++ media_type_of item)
                [("query", PStr (title item)); ("year", year_value item)] [] s) as H.
  destruct (make_tmdb_request W self _ _ [] s) as [[response | e] s1]; simpl in H.
  - destruct (negb (Py.truthy response)); [exact H | ].
    unfold lift. destruct (Py.get response "results" (JList [])); exact H.
  - exact H.
Qed.


Lemma media_type_of_cases item :
  media_type_of item = "movie" \/ media_type_of item = "tv".
Proof.
  unfold media_type_of. destruct (type item =? "movie"); [left | right]; reflexivity.
Qed.

Lemma lookup_call_is_not_search item tmdb_id : is_search (lookup_call item tmdb_id) = false.
Proof.
  unfold is_search, lookup_call. simpl.
  destruct (media_type_of_cases item) as [-> | ->]; reflexivity.
Qed.

Lemma search_call_is_search item : is_search (search_call item) = true.
Proof.
  unfold is_search, search_call. simpl.
  destruct (media_type_of_cases item) as [-> | ->]; reflexivity.
Qed.

Lemma _get_tmdb_data_with_id item s tmdb_id :
  _get_tmdb_id item = Some tmdb_id -> tmdb_id <> "" ->
  _get_tmdb_data W self item s
  = make_tmdb_request W self (media_type_of item ++ "/" ++ tmdb_id) [] [] s.
Proof.
  intros Hid Hne. unfold _get_tmdb_data. rewrite Hid.
  destruct (String.eqb_spec tmdb_id ""); [contradiction | reflexivity].
Qed.

Lemma _get_tmdb_data_without_id item s :
  _get_tmdb_id item = None \/ _get_tmdb_id item = Some "" ->
  _get_tmdb_data W self item s = _search_tmdb W self item s.
Proof.
  intros [H | H]; unfold _get_tmdb_data; rewrite H; reflexivity.
Qed.

End Resolution.

(** ** The id of a guid *)

Lemma prefix_append p s : prefix p (p ++ s) = true.
Proof.
  induction p as [ | c p IH]; simpl.
  - destruct s; reflexivity.
  - destruct (ascii_dec c c) as [_ | Hne]; [exact IH | contradiction].
Qed.

(** Dropping the rest of a matched occurrence. *)
Lemma replace_from_skip old new p s :
  PyStr.replace_from old new (String.length p) (p ++ s) = PyStr.replace_from old new 0 s.
Proof.
  induction p as [ | c p IH]; simpl; [reflexivity | exact IH].
Qed.

(** A string without occurrence of [old] is left as it is. *)
Lemma replace_from_absent old new s :
  PyStr.contains old s = false -> PyStr.replace_from old new 0 s = s.
Proof.
  induction s as [ | c s IH]; intros H; [reflexivity | ].
  cbn [PyStr.contains] in H. apply orb_false_iff in H. destruct H as [Hp Hc].
  cbn [PyStr.replace_from]. rewrite Hp, (IH Hc). reflexivity.
Qed.

Lemma replace_tmdb_prefix tmdb_id :
  PyStr.contains "tmdb://" tmdb_id = false ->
  PyStr.replace "tmdb://" "" ("tmdb://" ++ tmdb_id) = tmdb_id.
Proof.
  intros H. unfold PyStr.replace.
  change ("tmdb://" ++ tmdb_id) with (String "t" ("mdb://" ++ tmdb_id)).
  cbn [PyStr.replace_from].
  change (String "t" ("mdb://" ++ tmdb_id)) with ("tmdb://" ++ tmdb_id).
  rewrite prefix_append.
  change (String.length "tmdb://" - 1)%nat with (String.length "mdb://").
  rewrite replace_from_skip, (replace_from_absent _ _ _ H). reflexivity.
Qed.

(** C2. An item whose first guid that mentions tmdb is the TMDB reference
    "tmdb://{id}", with an id that is not empty, is resolved by one request,
    the lookup of movie/{id} or tv/{id} by the kind of the item, and no
    search.  An item none of whose guids mentions tmdb is resolved by one
    request, the search, and no lookup. *)
Theorem C2_lookup_by_reference_else_search :
  forall W self item s,
    (forall pre tmdb_id post,
        guids item = (pre ++ ("tmdb://" ++ tmdb_id)%string :: post)%list ->
        (forall x, In x pre -> PyStr.contains "tmdb" x = false) ->
        tmdb_id <> "" ->
        PyStr.contains "tmdb://" tmdb_id = false ->
        request_log (snd (_get_tmdb_data W self item s))
          = mkRequest ((if type item =? "movie" then "movie" else "tv") ++ "/" ++ tmdb_id)
                      [] []
            :: request_log s
        /\ is_search
             (mkRequest ((if type item =? "movie" then "movie" else "tv") ++ "/" ++ tmdb_id)
                        [] []) = false)
    /\ ((forall x, In x (guids item) -> PyStr.contains "tmdb" x = false) ->
        exists call,
          request_log (snd (_get_tmdb_data W self item s)) = call :: request_log s
          /\ req_endpoint call
             = "search/" ++ (if type item =? "movie" then "movie" else "tv")
          /\ is_search call = true).
Proof.
  intros W self item s. split.
  - intros pre tmdb_id post Hg Hpre Hne Hfree.
    assert (Hid : _get_tmdb_id item = Some tmdb_id).
    { unfold _get_tmdb_id. rewrite Hg.
      rewrite _get_tmdb_id_loop_first; [ | exact Hpre | reflexivity].
      rewrite (replace_tmdb_prefix _ Hfree). reflexivity. }
    rewrite (_get_tmdb_data_with_id W self item s _ Hid Hne).
    split; [apply make_tmdb_request_request_log | ].
    exact (lookup_call_is_not_search item tmdb_id).
  - intros Hnone.
    assert (Hid : _get_tmdb_id item = None)
      by (apply _get_tmdb_id_loop_none, Hnone).
    rewrite (_get_tmdb_data_without_id W self item s (or_introl Hid)).
    exists (search_call item).
    split; [apply _search_tmdb_request_log | ].
    split; [reflexivity | apply search_call_is_search].
Qed.

Lemma C2_lookup_by_reference_else_search_witness :
  request_log (snd (_get_tmdb_data world_record updater matrix_stale initial_state))
    = [mkRequest "movie/603" [] []]
  /\ map req_endpoint
       (request_log (snd (_get_tmdb_data world_record updater home_video initial_state)))
     = ["search/tv"].
Proof.
  split.
  - destruct (C2_lookup_by_reference_else_search world_record updater matrix_stale
                initial_state) as [Hlookup _].
    destruct (Hlookup ["imdb://tt0133093"] "603" [] eq_refl) as [Hlog _].
    + intros x [<- | []]. reflexivity.
    + discriminate.
    + reflexivity.
    + rewrite Hlog. reflexivity.
  - destruct (C2_lookup_by_reference_else_search world_record updater home_video
                initial_state) as [_ Hsearch].
    destruct Hsearch as [call [Hlog [Hep _]]].
    + intros x [].
    + rewrite Hlog. simpl. rewrite Hep. reflexivity.
Defined.

(** ** A request that is not in the cache *)

(** A request without extra options that is not in the cache calls
    [session.get] once, with the parameters sorted by key; the request is
    sent with the parameters of the session merged in; the answer decides
    what the request returns or raises. *)
Lemma make_tmdb_request_miss W self endpoint params s :
  cache_get (endpoint, sorted_items params) (cache s) = None ->
  http_log (snd (make_tmdb_request W self endpoint params [] s))
    = mkCall (tmdb_base_url (config self) ++ "/" ++ endpoint) (sorted_items params)
             (verify_ssl (config self)) [] :: http_log s
  /\ sent_log (snd (make_tmdb_request W self endpoint params [] s))
     = prepare_request (session self)
         (mkCall (tmdb_base_url (config self) ++ "/" ++ endpoint) (sorted_items params)
                 (verify_ssl (config self)) []) :: sent_log s
  /\ fst (make_tmdb_request W self endpoint params [] s)
     = match session_get W (length (http_log s))
               (prepare_request (session self)
                  (mkCall (tmdb_base_url (config self) ++ "/" ++ endpoint)
                          (sorted_items params) (verify_ssl (config self)) [])) with
       | inl e =>
           Raise (if is_RequestException e
                  then TMDBError ("TMDB API request failed: " ++ str e)
                  else e)
       | inr r =>
           if ((400 <=? status_code r) && (status_code r <? 600))%Z
           then Raise (TMDBError ("TMDB API request failed: " ++ http_error_msg r))
           else
             match body r with
             | inl e =>
                 Raise (if is_RequestException e
                        then TMDBError ("TMDB API request failed: " ++ str e)
                        else e)
             | inr v => Ok v
             end
       end.
Proof.
  intros Hmiss.
  unfold make_tmdb_request, bind, record_request, _make_tmdb_request_cached, lru_cache.
  cbn [cache]. rewrite Hmiss.
  unfold _make_tmdb_request_cached__wrapped, try_except, bind, session_get_call.
  cbn [assoc http_log sent_log].
  destruct (session_get W _ _) as [e | r].
  - destruct (is_RequestException e); repeat split.
  - unfold lift, raise_for_status, response_json.
    destruct ((400 <=? status_code r) && (status_code r <? 600))%Z; [repeat split | ].
    destruct (body r) as [e | v]; [ | repeat split].
    destruct (is_RequestException e); repeat split.
Qed.



(** ** The direct lookup and the status of its response *)

(** C7, as the code has it.  For an item with a TMDB id whose lookup is not
    in the cache and is answered by the response [r]: when [r] has an HTTP
    error status (400 to 599, 404 for an id that TMDB does not know),
    resolution raises [TMDBError] with the message
    "TMDB API request failed: " followed by the message of the [HTTPError],
    and the worker reports "Error: " with that message; when [r] has another
    status, resolution returns the decoded body as it is, a record or [None],
    without raising.  So resolution returns [None] exactly when the status is
    not an error and the body is null. *)
Theorem C7_direct_lookup_raises_on_http_error :
  forall W self item s tmdb_id r,
    _get_tmdb_id item = Some tmdb_id ->
    tmdb_id <> "" ->
    cache_get (media_type_of item ++ "/" ++ tmdb_id, []) (cache s) = None ->
    session_get W (length (http_log s))
      (prepare_request (session self)
         (mkCall (tmdb_base_url (config self) ++ "/" ++ media_type_of item ++ "/" ++ tmdb_id)
                 [] (verify_ssl (config self)) [])) = inr r ->
    ((400 <= status_code r < 600)%Z ->
       fst (_get_tmdb_data W self item s)
       = Raise (TMDBError ("TMDB API request failed: " ++ http_error_msg r))
       /\ fst (_update_item W self item s)
          = Ok (title item, "Error: TMDB API request failed: " ++ http_error_msg r))
    /\ (forall v,
          ~ (400 <= status_code r < 600)%Z ->
          body r = inr v ->
          fst (_get_tmdb_data W self item s) = Ok v)
    /\ (fst (_get_tmdb_data W self item s) = Ok JNull
        <-> ~ (400 <= status_code r < 600)%Z /\ body r = inr JNull).
Proof.
  intros W self item s tmdb_id r Hid Hne Hmiss Hget.
  assert (Hmiss' : cache_get (media_type_of item ++ "/" ++ tmdb_id, sorted_items [])
                             (cache s) = None) by exact Hmiss.
  destruct (make_tmdb_request_miss W self _ _ s Hmiss') as [_ [_ Hrun]].
  cbn [sorted_items] in Hrun. rewrite Hget in Hrun.
  rewrite <- (_get_tmdb_data_with_id W self item s _ Hid Hne) in Hrun.
  assert (Hstatus : ((400 <=? status_code r) && (status_code r <? 600))%Z = true
                    <-> (400 <= status_code r < 600)%Z)
    by (rewrite andb_true_iff, Z.leb_le, Z.ltb_lt; reflexivity).
  destruct ((400 <=? status_code r) && (status_code r <? 600))%Z eqn:E.
  - assert (Herr : (400 <= status_code r < 600)%Z) by (apply Hstatus; reflexivity).
    split; [ | split].
    + intros _. split; [exact Hrun | ].
      destruct (_get_tmdb_data W self item s) as [res s1] eqn:Hres.
      cbn [fst] in Hrun. subst res.
      rewrite (_update_item_of_raise W self item s _ s1
                 (try_raises_in_resolution W self item s _ s1 Hres)).
      reflexivity.
    + intros v Hok. contradiction.
    + rewrite Hrun. split; [discriminate | intros [Hok _]; contradiction].
  - assert (Hok : ~ (400 <= status_code r < 600)%Z)
      by (intros H; apply Hstatus in H; discriminate H).
    split; [ | split].
    + intros Herr. contradiction.
    + intros v _ Hbody. rewrite Hrun, Hbody. reflexivity.
    + rewrite Hrun. destruct (body r) as [e | v].
      * split; [discriminate | intros [_ H]; discriminate H].
      * split.
        -- intros [= ->]. split; [exact Hok | reflexivity].
        -- intros [_ [= ->]]. reflexivity.
Qed.

Lemma C7_direct_lookup_raises_on_http_error_witness :
  fst (_get_tmdb_data world_not_found updater matrix_stale initial_state)
  = Raise (TMDBError
             "TMDB API request failed: 404 Client Error: Not Found for url: https://api.themoviedb.org/3/movie/603?api_key=key").
Proof.
  destruct (C7_direct_lookup_raises_on_http_error world_not_found updater matrix_stale
              initial_state "603"
              (not_found
                 (prepare_request (session updater)
                    (mkCall "https://api.themoviedb.org/3/movie/603" [] false [])))
              eq_refl) as [Herr _].
  - discriminate.
  - reflexivity.
  - reflexivity.
  - destruct Herr as [Hraise _].
    + simpl. lia.
    + rewrite Hraise. reflexivity.
Defined.

(** C7 as stated fails: the item carries the id 603, TMDB answers the lookup
    with 404, and resolution raises instead of returning [None]. *)
Lemma C7_not_found_counterexample :
  _get_tmdb_id matrix_stale = Some "603"
  /\ fst (_get_tmdb_data world_not_found updater matrix_stale initial_state) <> Ok JNull
  /\ exists msg,
       fst (_get_tmdb_data world_not_found updater matrix_stale initial_state)
       = Raise (TMDBError msg).
Proof.
  split; [reflexivity | split; [discriminate | ]].
  eexists. reflexivity.
Qed.

(** ** Startup *)

Section StartupFacts.

Variable W : World.

(** Inside [main()], a failure of the constructor ends the process with
    [SystemExit("Error: ...")] before any request or write. *)
Lemma main_exits_on_constructor_failure env s e s1 :
  PlexSummaryUpdater__init__ W
    (Config_defaults (getenv_default (PLEX_URL env)) (getenv_default (PLEX_TOKEN env))
                     (getenv_default (TMDB_API_KEY env))) s = (Raise e, s1) ->
  main W env s = (SystemExit ("Error: " ++ str e), s1)
  /\ exit_code (fst (main W env s)) = 1%Z
  /\ prefix "Error: " (exit_message (fst (main W env s))) = true.
Proof.
  intros H.
  assert (Hmain : main W env s = (SystemExit ("Error: " ++ str e), s1))
    by (unfold main, main_body, bind; rewrite H; reflexivity).
  rewrite Hmain. split; [reflexivity | split; [reflexivity | ]].
  cbn [fst exit_message]. destruct (str e); reflexivity.
Qed.

Lemma init_raises_on_missing_configuration cfg s :
  missing_fields cfg <> [] ->
  PlexSummaryUpdater__init__ W cfg s
  = (Raise (ConfigError ("Missing required configuration: "
                         ++ join_comma (missing_fields cfg))), s).
Proof.
  intros H. unfold PlexSummaryUpdater__init__, bind, _validate_config.
  destruct (missing_fields cfg); [contradiction | reflexivity].
Qed.

Lemma init_raises_on_failed_connection cfg s e :
  missing_fields cfg = [] ->
  plex_connect W (connect_count s) (Some (plex_url cfg)) (Some (plex_token cfg)) = inl e ->
  exists s1,
    PlexSummaryUpdater__init__ W cfg s
    = (Raise (PlexError ("Failed to connect to Plex: " ++ str e)), s1)
    /\ http_log s1 = http_log s /\ edit_log s1 = edit_log s
    /\ request_log s1 = request_log s.
Proof.
  intros Hm He. unfold PlexSummaryUpdater__init__, bind, _validate_config.
  rewrite Hm. unfold ret, _init_plex, try_except, PlexServer. rewrite He. simpl.
  eexists. split; [reflexivity | repeat split].
Qed.

End StartupFacts.

(** C9, at an input where the code departs from it.  All three variables
    are set and the Plex server cannot be reached: the connection made when
    the module is loaded raises outside any [try], before [main()] is
    entered.  No item is processed and the exit status is 1, but what the
    process prints is the traceback of that exception, and it does not begin
    with "Error: ". *)
Theorem C9_module_level_connection_is_uncaught :
  fst (run_script world_unreachable env_complete initial_state)
    = Uncaught (OtherException "requests.exceptions.ConnectionError" "Connection refused")
  /\ exit_code (fst (run_script world_unreachable env_complete initial_state)) = 1%Z
  /\ prefix "Error: "
       (exit_message (fst (run_script world_unreachable env_complete initial_state))) = false
  /\ request_log (snd (run_script world_unreachable env_complete initial_state)) = []
  /\ edit_log (snd (run_script world_unreachable env_complete initial_state)) = [].
Proof.
  repeat split.
Qed.

(** When the module-level connection succeeds, a missing key reaches
    [main()] and the exit message has the prefix. *)
Example missing_key_exit :
  fst (run_script world_record env_no_key initial_state)
  = SystemExit "Error: Missing required configuration: tmdb_api_key".
Proof. reflexivity. Qed.

(** ** The cache of requests *)

Lemma pvalue_eqb_eq a b : pvalue_eqb a b = true <-> a = b.
Proof.
  destruct a, b; simpl; try (split; [discriminate | discriminate]).
  - split; reflexivity.
  - rewrite Z.eqb_eq. split; [intros -> | intros [= ->]]; reflexivity.
  - rewrite String.eqb_eq. split; [intros -> | intros [= ->]]; reflexivity.
Qed.

Lemma params_eqb_eq a : forall b, params_eqb a b = true <-> a = b.
Proof.
  induction a as [ | [k v] a IH]; intros [ | [k' v'] b]; simpl;
    try (split; [discriminate | discriminate]).
  - split; reflexivity.
  - rewrite !andb_true_iff, String.eqb_eq, pvalue_eqb_eq, IH. split.
    + intros [[-> ->] ->]. reflexivity.
    + intros [= -> -> ->]. repeat split.
Qed.

Lemma key_eqb_eq a b : key_eqb a b = true <-> a = b.
Proof.
  destruct a as [e p], b as [e' p']. unfold key_eqb. simpl.
  rewrite andb_true_iff, String.eqb_eq, params_eqb_eq. split.
  - intros [-> ->]. reflexivity.
  - intros [= -> ->]. split; reflexivity.
Qed.

Lemma key_eqb_refl k : key_eqb k k = true.
Proof. apply key_eqb_eq. reflexivity. Qed.

Lemma key_eqb_neq a b : a <> b -> key_eqb a b = false.
Proof.
  intros H. destruct (key_eqb a b) eqn:E; [ | reflexivity].
  apply key_eqb_eq in E. contradiction.
Qed.

Lemma cache_get_app_fresh k l1 l2 :
  (forall e, In e l1 -> fst e <> k) -> cache_get k (l1 ++ l2) = cache_get k l2.
Proof.
  induction l1 as [ | [k' v'] l1 IH]; intros H; simpl; [reflexivity | ].
  rewrite key_eqb_neq by (apply (H (k', v')); left; reflexivity).
  apply IH. intros e He. apply H. right. exact He.
Qed.

Lemma cached_at_get k v n c : cached_at k v n c -> cache_get k c = Some v.
Proof.
  intros [l1 [l2 [-> [_ Hfresh]]]].
  rewrite cache_get_app_fresh by exact Hfresh.
  simpl. rewrite key_eqb_refl. reflexivity.
Qed.

Lemma cached_at_mono k v n m c : (n <= m)%nat -> cached_at k v n c -> cached_at k v m c.
Proof.
  intros Hle [l1 [l2 [Hc [Hlen Hfresh]]]]. exists l1, l2. repeat split; [exact Hc | lia | exact Hfresh].
Qed.

Lemma cached_at_head k v c : cached_at k v 0 ((k, v) :: c).
Proof.
  exists [], c. repeat split; [simpl; lia | intros e []].
Qed.

Lemma cache_remove_app k l1 l2 :
  cache_remove k (l1 ++ l2) = (cache_remove k l1 ++ cache_remove k l2)%list.
Proof. apply filter_app. Qed.

Lemma cache_remove_length k c : (length (cache_remove k c) <= length c)%nat.
Proof. apply filter_length_le. Qed.

(** A hit on another key moves the entry down by one place at most. *)
Lemma cached_at_touch_other k v n k' v' c :
  k' <> k -> cached_at k v n c -> cached_at k v (S n) (cache_touch k' v' c).
Proof.
  intros Hne [l1 [l2 [-> [Hlen Hfresh]]]]. unfold cache_touch.
  exists ((k', v') :: cache_remove k' l1), (cache_remove k' l2). repeat split.
  - rewrite cache_remove_app. simpl.
    rewrite key_eqb_neq by (intros E; apply Hne; symmetry; exact E). reflexivity.
  - simpl. pose proof (cache_remove_length k' l1). lia.
  - intros e [<- | He]; [exact Hne | ].
    apply filter_In in He. apply Hfresh, He.
Qed.

(** A miss on another key moves the entry down by one place, and keeps it
    as long as the place is within the size of the cache. *)
Lemma cached_at_put_other k v n k' v' c :
  k' <> k -> (S n < maxsize)%nat -> cached_at k v n c ->
  cached_at k v (S n) (cache_put k' v' c).
Proof.
  intros Hne Hn [l1 [l2 [-> [Hlen Hfresh]]]]. unfold cache_put.
  assert (Hfresh' : forall e, In e ((k', v') :: l1) -> fst e <> k)
    by (intros e [<- | He]; [exact Hne | apply Hfresh, He]).
  destruct (Nat.leb_spec maxsize (length (l1 ++ (k, v) :: l2))) as [Hfull | _].
  - destruct l2 as [ | e2 l2].
    + rewrite length_app in Hfull. simpl in Hfull. lia.
    + exists ((k', v') :: l1), (removelast (e2 :: l2)). repeat split.
      * change ((k, v) :: e2 :: l2) with ([(k, v)] ++ e2 :: l2)%list.
        rewrite app_assoc, removelast_app by discriminate.
        rewrite <- app_assoc. reflexivity.
      * simpl. lia.
      * exact Hfresh'.
  - exists ((k', v') :: l1), l2. repeat split; [simpl; lia | exact Hfresh'].
Qed.

Lemma cache_touch_length k v c :
  cache_get k c = Some v -> (length (cache_touch k v c) <= length c)%nat.
Proof.
  unfold cache_touch, cache_remove. simpl.
  induction c as [ | [k' v'] c IH]; simpl; [discriminate | ].
  destruct (key_eqb k' k); simpl.
  - intros _. pose proof (filter_length_le (fun e => negb (key_eqb (fst e) k)) c). lia.
  - intros H. specialize (IH H). lia.
Qed.

Lemma removelast_length {A} (l : list A) : length (removelast l) = pred (length l).
Proof.
  rewrite removelast_firstn_len, length_firstn. lia.
Qed.

Lemma cache_put_length k v c :
  (length c <= maxsize)%nat -> (length (cache_put k v c) <= maxsize)%nat.
Proof.
  intros H. unfold cache_put. cbn [length].
  assert (Hpos : (0 < maxsize)%nat) by apply Nat.lt_0_succ.
  destruct (Nat.leb_spec maxsize (length c)).
  - rewrite removelast_length. lia.
  - lia.
Qed.

Section RequestCache.

Variable W : World.
Variable self : PlexSummaryUpdater.

(** A request whose key is in the cache returns the stored value and makes
    no transport call. *)
Lemma make_tmdb_request_hit endpoint params s v :
  cache_get (endpoint, sorted_items params) (cache s) = Some v ->
  fst (make_tmdb_request W self endpoint params [] s) = Ok v
  /\ http_log (snd (make_tmdb_request W self endpoint params [] s)) = http_log s.
Proof.
  intros Hhit.
  unfold make_tmdb_request, bind, record_request, _make_tmdb_request_cached, lru_cache.
  cbn [cache]. rewrite Hhit. split; reflexivity.
Qed.

(** A request without extra options that returns leaves its result at the
    most recently used place of the cache. *)
Lemma make_tmdb_request_caches endpoint params s v s1 :
  make_tmdb_request W self endpoint params [] s = (Ok v, s1) ->
  cached_at (endpoint, sorted_items params) v 0 (cache s1).
Proof.
  unfold make_tmdb_request, bind, record_request, _make_tmdb_request_cached, lru_cache.
  cbn [cache].
  destruct (cache_get (endpoint, sorted_items params) (cache s)) as [v' | ].
  - intros [= <- <-]. apply cached_at_head.
  - destruct (_make_tmdb_request_cached__wrapped W self _ _) as [[v' | e] s'].
    + intros [= <- <-]. apply cached_at_head.
    + discriminate.
Qed.

(** The uncached path leaves the cache alone. *)
Lemma make_tmdb_request_bypass endpoint params kw kwargs s :
  cache (snd (make_tmdb_request W self endpoint params (kw :: kwargs) s)) = cache s.
Proof.
  unfold make_tmdb_request, bind, record_request.
  set (s0 := mkState _ _ _ _ _ _ _).
  change (cache s) with (cache s0).
  apply (exchange_keeps W cache), session_get_call_keeps_cache.
Qed.

(** The uncached path calls the transport whatever the cache holds. *)
Lemma make_tmdb_request_bypass_calls endpoint params kw kwargs s :
  assoc "verify" (kw :: kwargs) = None ->
  http_log (snd (make_tmdb_request W self endpoint params (kw :: kwargs) s))
  = mkCall (tmdb_base_url (config self) ++ "/" ++ endpoint) params
           (verify_ssl (config self)) (kw :: kwargs) :: http_log s.
Proof.
  intros Hv.
  unfold make_tmdb_request, bind, record_request, try_except, session_get_call.
  rewrite Hv. cbn [http_log].
  destruct (session_get W _ _) as [e | r].
  - destruct (is_RequestException e); reflexivity.
  - unfold lift. destruct (raise_for_status r) as [[] | e].
    + destruct (response_json r) as [v | e]; [reflexivity | ].
      destruct (is_RequestException e); reflexivity.
    + destruct (is_RequestException e); reflexivity.
Qed.

(** One more request moves a cached entry down by one place at most. *)
Lemma make_tmdb_request_keeps_entry k v n r s :
  cached_at k v n (cache s) ->
  (S n < maxsize)%nat ->
  cached_at k v (S n)
    (cache (snd (make_tmdb_request W self (req_endpoint r) (req_params r) (req_kwargs r) s))).
Proof.
  intros Hat Hn. destruct r as [endpoint params kwargs]. cbn [req_endpoint req_params req_kwargs].
  destruct kwargs as [ | kw kwargs].
  - unfold make_tmdb_request, bind, record_request, _make_tmdb_request_cached, lru_cache.
    cbn [cache].
    set (k' := (endpoint, sorted_items params)).
    destruct (cache_get k' (cache s)) as [v' | ] eqn:Hget.
    + cbn [snd set_cache cache].
      assert (Hdec : k' = k \/ k' <> k).
      { destruct (key_eqb k' k) eqn:E; [left; apply key_eqb_eq, E | right].
        intros ->. rewrite key_eqb_refl in E. discriminate. }
      destruct Hdec as [-> | Hne].
      * rewrite (cached_at_get _ _ _ _ Hat) in Hget. injection Hget as <-.
        apply (cached_at_mono k v 0); [lia | apply cached_at_head].
      * apply cached_at_touch_other; assumption.
    + assert (Hne : k' <> k).
      { intros ->. rewrite (cached_at_get _ _ _ _ Hat) in Hget. discriminate. }
      set (s0 := mkState _ _ _ _ _ _ _).
      pose proof (wrapped_keeps_cache W self k' s0) as K.
      destruct (_make_tmdb_request_cached__wrapped W self k' s0) as [[v' | e] s'];
        cbn [snd set_cache cache] in *.
      * rewrite K. apply cached_at_put_other; assumption.
      * rewrite K. apply (cached_at_mono k v n); [lia | exact Hat].
  - rewrite make_tmdb_request_bypass. apply (cached_at_mono k v n); [lia | exact Hat].
Qed.

Lemma run_requests_keeps_entry k v rs :
  forall n s,
    cached_at k v n (cache s) ->
    (n + length rs < maxsize)%nat ->
    cached_at k v (n + length rs) (cache (run_requests W self rs s)).
Proof.
  induction rs as [ | r rs IH]; intros n s Hat Hn; cbn [run_requests length] in *.
  - rewrite Nat.add_0_r. exact Hat.
  - replace (n + S (length rs))%nat with (S n + length rs)%nat by lia.
    apply IH; [ | lia].
    apply make_tmdb_request_keeps_entry; [exact Hat | lia].
Qed.

(** The cache never holds more than [maxsize] entries. *)
Lemma make_tmdb_request_cache_bound r s :
  (length (cache s) <= maxsize)%nat ->
  (length (cache (snd (make_tmdb_request W self (req_endpoint r) (req_params r)
                         (req_kwargs r) s))) <= maxsize)%nat.
Proof.
  intros Hlen. destruct r as [endpoint params kwargs]. cbn [req_endpoint req_params req_kwargs].
  destruct kwargs as [ | kw kwargs].
  - unfold make_tmdb_request, bind, record_request, _make_tmdb_request_cached, lru_cache.
    cbn [cache].
    set (k' := (endpoint, sorted_items params)).
    destruct (cache_get k' (cache s)) as [v' | ] eqn:Hget.
    + cbn [snd set_cache cache]. pose proof (cache_touch_length _ _ _ Hget). lia.
    + set (s0 := mkState _ _ _ _ _ _ _).
      pose proof (wrapped_keeps_cache W self k' s0) as K.
      destruct (_make_tmdb_request_cached__wrapped W self k' s0) as [[v' | e] s'];
        cbn [snd set_cache cache] in *.
      * apply cache_put_length. rewrite K. exact Hlen.
      * rewrite K. exact Hlen.
  - rewrite make_tmdb_request_bypass. exact Hlen.
Qed.

Lemma run_requests_cache_bound rs :
  forall s, (length (cache s) <= maxsize)%nat ->
            (length (cache (run_requests W self rs s)) <= maxsize)%nat.
Proof.
  induction rs as [ | r rs IH]; intros s Hlen; cbn [run_requests].
  - exact Hlen.
  - apply IH, make_tmdb_request_cache_bound, Hlen.
Qed.

End RequestCache.

(** C5, as the code has it.  A request without extra options that returned
    is memoized under (endpoint, sorted parameter pairs): a request with the
    same key that comes after fewer than 1024 other requests returns the same
    value and makes no transport call.  The cache is an LRU cache of at most
    1024 entries, so an entry does not live for the whole process.  A request
    with extra options never reads or changes the cache, and calls the
    transport. *)
Theorem C5_memoized_within_the_lru_bound :
  (forall W self endpoint params params' v s s1 others,
      make_tmdb_request W self endpoint params [] s = (Ok v, s1) ->
      sorted_items params' = sorted_items params ->
      (length others < maxsize)%nat ->
      fst (make_tmdb_request W self endpoint params' [] (run_requests W self others s1))
        = Ok v
      /\ http_log (snd (make_tmdb_request W self endpoint params' []
                          (run_requests W self others s1)))
         = http_log (run_requests W self others s1))
  /\ (forall W self rs,
        (length (cache (run_requests W self rs initial_state)) <= 1024)%nat)
  /\ (forall W self endpoint params kw kwargs s,
        cache (snd (make_tmdb_request W self endpoint params (kw :: kwargs) s)) = cache s
        /\ (assoc "verify" (kw :: kwargs) = None ->
            http_log (snd (make_tmdb_request W self endpoint params (kw :: kwargs) s))
            = mkCall (tmdb_base_url (config self) ++ "/" ++ endpoint) params
                     (verify_ssl (config self)) (kw :: kwargs) :: http_log s)).
Proof.
  split; [ | split].
  - intros W self endpoint params params' v s s1 others Hfirst Hkey Hlen.
    apply make_tmdb_request_hit. rewrite Hkey.
    apply (cached_at_get _ _ (0 + length others)).
    apply run_requests_keeps_entry; [ | exact Hlen].
    exact (make_tmdb_request_caches W self endpoint params s v s1 Hfirst).
  - intros W self rs. apply run_requests_cache_bound. apply Nat.le_0_l.
  - intros W self endpoint params kw kwargs s. split.
    + apply make_tmdb_request_bypass.
    + apply make_tmdb_request_bypass_calls.
Qed.

Lemma C5_memoized_within_the_lru_bound_witness :
  fst (make_tmdb_request world_no_results updater "search/tv"
         [("query", PStr "Holiday 2019"); ("year", PNone)] []
         (run_requests world_no_results updater (numbered_lookups 3)
            (snd (make_tmdb_request world_no_results updater "search/tv"
                    [("year", PNone); ("query", PStr "Holiday 2019")] [] initial_state))))
  = Ok (JObj [("page", JNum 1); ("results", JList [])]).
Proof.
  destruct C5_memoized_within_the_lru_bound as [Hmemo _].
  destruct (Hmemo world_no_results updater "search/tv"
              [("year", PNone); ("query", PStr "Holiday 2019")]
              [("query", PStr "Holiday 2019"); ("year", PNone)]
              (JObj [("page", JNum 1); ("results", JList [])])
              initial_state _ (numbered_lookups 3) eq_refl eq_refl) as [Hval _].
  - unfold maxsize. simpl. lia.
  - exact Hval.
Defined.

(** C5 as stated fails: the lookup of movie 0 is cached; after the lookups
    of 1024 other movies its entry is gone, and the same lookup calls the
    transport again. *)
Lemma C5_eviction_counterexample :
  cache_get ("movie/0", []) (cache after_first) = Some matrix_record
  /\ cache_get ("movie/0", []) (cache after_others) = None
  /\ length (http_log after_repeat) = 1026%nat.
Proof.
  vm_compute. repeat split.
Qed.

(** With 1023 other lookups in between, the entry is still there. *)
Example lookup_survives_1023_others :
  length (http_log (run_requests world_record updater [lookup_0]
                      (run_requests world_record updater (numbered_lookups 1023) after_first)))
  = 1024%nat.
Proof. vm_compute. reflexivity. Qed.

(** * Further properties of the code *)

(** ** Configuration and construction *)

Lemma missing_fields_empty_required cfg : missing_fields cfg = empty_required cfg.
Proof.
  unfold missing_fields, empty_required. simpl.
  destruct (plex_url cfg =? ""), (plex_token cfg =? ""), (tmdb_api_key cfg =? "");
    reflexivity.
Qed.

(** X1. [_validate_config] accepts a configuration exactly when its three
    required fields are not empty; otherwise it raises [ConfigError] whose
    message lists the empty fields, in the order plex_url, plex_token,
    tmdb_api_key, separated by ", ".  It changes nothing. *)
Theorem validate_config_lists_the_empty_fields :
  forall cfg s,
    (empty_required cfg = []
     <-> plex_url cfg <> "" /\ plex_token cfg <> "" /\ tmdb_api_key cfg <> "")
    /\ _validate_config cfg s
       = match empty_required cfg with
         | [] => (Ok tt, s)
         | names =>
             (Raise (ConfigError ("Missing required configuration: " ++ join_comma names)),
              s)
         end.
Proof.
  intros cfg s. split.
  - unfold empty_required.
    destruct (String.eqb_spec (plex_url cfg) ""), (String.eqb_spec (plex_token cfg) ""),
      (String.eqb_spec (tmdb_api_key cfg) ""); simpl;
      split; try discriminate; try (intros [? [? ?]]; contradiction); auto.
  - unfold _validate_config. rewrite missing_fields_empty_required.
    destruct (empty_required cfg); reflexivity.
Qed.

(** X2. The constructor validates before it connects: with an empty
    required field it raises [ConfigError] and no connection to Plex is
    attempted.  It raises nothing but [ConfigError] and [PlexError]; a failed
    connection is reported as "Failed to connect to Plex: " followed by the
    message of the cause.  When it returns, the updater holds the given
    configuration and the sections of the one connection it made. *)
Theorem constructor_validates_then_connects :
  forall W cfg s,
    (empty_required cfg <> [] ->
       exists msg, PlexSummaryUpdater__init__ W cfg s = (Raise (ConfigError msg), s))
    /\ (forall e s',
          PlexSummaryUpdater__init__ W cfg s = (Raise e, s') ->
          (exists msg, e = ConfigError msg)
          \/ (exists cause,
                plex_connect W (connect_count s) (Some (plex_url cfg))
                             (Some (plex_token cfg)) = inl cause
                /\ e = PlexError ("Failed to connect to Plex: " ++ str cause)))
    /\ (forall updater s',
          PlexSummaryUpdater__init__ W cfg s = (Ok updater, s') ->
          config updater = cfg
          /\ empty_required cfg = []
          /\ plex_connect W (connect_count s) (Some (plex_url cfg))
                          (Some (plex_token cfg)) = inr (plex updater)
          /\ connect_count s' = S (connect_count s)).
Proof.
  intros W cfg s.
  destruct (validate_config_lists_the_empty_fields cfg s) as [_ Hval].
  unfold PlexSummaryUpdater__init__, bind. rewrite Hval.
  destruct (empty_required cfg) as [ | name names] eqn:Hempty.
  - split; [intros H; contradiction | ].
    unfold _init_plex, try_except, PlexServer.
    destruct (plex_connect W (connect_count s) (Some (plex_url cfg))
                (Some (plex_token cfg))) as [cause | secs]; simpl; split.
    + intros e s' [= <- <-]. right. exists cause. split; reflexivity.
    + intros updater s' H. discriminate H.
    + intros e s' H. discriminate H.
    + intros updater s' [= <- <-]. simpl. repeat split.
  - split; [ | split].
    + intros _. eexists. reflexivity.
    + intros e s' [= <- <-]. left. eexists. reflexivity.
    + intros updater s' H. discriminate H.
Qed.

(** X3. With the module-level connection made, a process whose environment
    leaves a required variable unset or empty ends with exit status 1 and
    the message "Error: Missing required configuration: " followed by the
    names of those variables' fields; it connects no second time, sends no
    request and writes nothing. *)
Theorem run_script_reports_missing_configuration :
  forall W env s sections,
    plex_connect W (connect_count s) (PLEX_URL env) (PLEX_TOKEN env) = inr sections ->
    empty_required
      (Config_defaults (getenv_default (PLEX_URL env)) (getenv_default (PLEX_TOKEN env))
                       (getenv_default (TMDB_API_KEY env))) <> [] ->
    exists s',
      run_script W env s
      = (SystemExit
           ("Error: Missing required configuration: "
            ++ join_comma
                 (empty_required
                    (Config_defaults (getenv_default (PLEX_URL env))
                                     (getenv_default (PLEX_TOKEN env))
                                     (getenv_default (TMDB_API_KEY env))))), s')
      /\ exit_code (fst (run_script W env s)) = 1%Z
      /\ connect_count s' = S (connect_count s)
      /\ http_log s' = http_log s
      /\ request_log s' = request_log s
      /\ edit_log s' = edit_log s.
Proof.
  intros W env s sections Hconn Hmiss.
  set (cfg := Config_defaults _ _ _) in *.
  unfold run_script, PlexServer. rewrite Hconn.
  set (s0 := mkState _ _ _ _ _ _ _).
  destruct (validate_config_lists_the_empty_fields cfg s0) as [_ Hval].
  unfold main, main_body, bind, PlexSummaryUpdater__init__, bind. fold cfg. rewrite Hval.
  destruct (empty_required cfg) as [ | name names]; [contradiction | ].
  exists s0. repeat split.
Qed.

Lemma run_script_reports_missing_configuration_witness :
  fst (run_script world_record env_no_key initial_state)
  = SystemExit "Error: Missing required configuration: tmdb_api_key".
Proof.
  destruct (run_script_reports_missing_configuration world_record env_no_key
              initial_state empty_server eq_refl) as [s' [Hrun _]].
  - discriminate.
  - rewrite Hrun. reflexivity.
Defined.

(** X4. With the module-level connection made and the configuration
    complete, a failure of the connection that the constructor makes ends the
    process with exit status 1 and the message
    "Error: Failed to connect to Plex: " followed by the message of the
    cause, before any request or write. *)
Theorem run_script_reports_failed_connection :
  forall W env s sections cause,
    plex_connect W (connect_count s) (PLEX_URL env) (PLEX_TOKEN env) = inr sections ->
    empty_required
      (Config_defaults (getenv_default (PLEX_URL env)) (getenv_default (PLEX_TOKEN env))
                       (getenv_default (TMDB_API_KEY env))) = [] ->
    plex_connect W (S (connect_count s)) (Some (getenv_default (PLEX_URL env)))
                 (Some (getenv_default (PLEX_TOKEN env))) = inl cause ->
    exists s',
      run_script W env s
      = (SystemExit ("Error: Failed to connect to Plex: " ++ str cause), s')
      /\ exit_code (fst (run_script W env s)) = 1%Z
      /\ http_log s' = http_log s
      /\ request_log s' = request_log s
      /\ edit_log s' = edit_log s.
Proof.
  intros W env s sections cause Hconn Hok Hfail.
  set (cfg := Config_defaults _ _ _) in *.
  unfold run_script, PlexServer. rewrite Hconn.
  set (s0 := mkState _ _ _ _ _ _ _).
  destruct (validate_config_lists_the_empty_fields cfg s0) as [_ Hval].
  unfold main, main_body, bind, PlexSummaryUpdater__init__, bind. fold cfg.
  rewrite Hval, Hok.
  unfold _init_plex, try_except, PlexServer. subst s0. cbn [connect_count].
  change (plex_url cfg) with (getenv_default (PLEX_URL env)).
  change (plex_token cfg) with (getenv_default (PLEX_TOKEN env)).
  rewrite Hfail. simpl.
  eexists. repeat split.
Qed.

Lemma run_script_reports_failed_connection_witness :
  fst (run_script world_flaky env_complete initial_state)
  = SystemExit "Error: Failed to connect to Plex: Connection refused".
Proof.
  destruct (run_script_reports_failed_connection world_flaky env_complete initial_state
              empty_server
              (OtherException "requests.exceptions.ConnectionError" "Connection refused")
              eq_refl eq_refl eq_refl) as [s' [Hrun _]].
  rewrite Hrun. reflexivity.
Defined.

(** ** What the workers leave alone *)

Section WorkerFrame.

Variable W : World.
Variable self : PlexSummaryUpdater.
Context {B : Type} (f : State -> B).
Hypothesis Hf : ignores_io f.

Lemma ignores_io_set_cache c s : f (set_cache c s) = f s.
Proof. unfold set_cache. apply Hf. Qed.

Lemma session_get_call_keeps sess url params verify kwargs :
  keeps f (session_get_call W sess url params verify kwargs).
Proof.
  intros s. unfold session_get_call.
  destruct (assoc "verify" kwargs); [reflexivity | ].
  destruct (session_get W _ _); apply Hf.
Qed.

Lemma edit_summary_keeps item v : keeps f (edit_summary W item v).
Proof.
  intros s. unfold edit_summary. destruct (plex_edit W _ item v); apply Hf.
Qed.

Lemma make_tmdb_request_keeps endpoint params kwargs :
  keeps f (make_tmdb_request W self endpoint params kwargs).
Proof.
  unfold make_tmdb_request. apply keeps_bind.
  - intros s. apply Hf.
  - intros _. destruct kwargs as [ | kw kwargs].
    + apply keeps_lru_cache; [apply ignores_io_set_cache | ].
      intros [ep items]. apply exchange_keeps, session_get_call_keeps.
    + apply exchange_keeps, session_get_call_keeps.
Qed.

Lemma _get_tmdb_data_keeps item : keeps f (_get_tmdb_data W self item).
Proof.
  assert (Hsearch : keeps f (_search_tmdb W self item)).
  { unfold _search_tmdb. apply keeps_bind; [apply make_tmdb_request_keeps | ].
    intros r. destruct (negb (Py.truthy r)); auto with keeps.
    apply keeps_bind; auto with keeps. }
  unfold _get_tmdb_data. destruct (_get_tmdb_id item) as [tmdb_id | ]; [ | exact Hsearch].
  destruct (tmdb_id =? ""); [exact Hsearch | apply make_tmdb_request_keeps].
Qed.

Lemma _update_item_keeps item : keeps f (_update_item W self item).
Proof.
  unfold _update_item. apply keeps_try_except; [ | auto with keeps].
  unfold _update_item_try. apply keeps_bind; [apply _get_tmdb_data_keeps | ].
  intros data. destruct (negb (Py.truthy data)); auto with keeps.
  apply keeps_bind; auto with keeps.
  intros ov. destruct (Py.str_ne (summary item) ov); auto with keeps.
  apply keeps_bind; auto with keeps.
  intros ov'. apply keeps_bind; [apply edit_summary_keeps | auto with keeps].
Qed.

Lemma run_workers_keeps completed : forall s, f (snd (run_workers W self completed s)) = f s.
Proof.
  induction completed as [ | item rest IH]; intros s; simpl; [reflexivity | ].
  pose proof (_update_item_keeps item s) as K.
  destruct (_update_item W self item s) as [r s1]. simpl in K.
  specialize (IH s1). destruct (run_workers W self rest s1) as [rs s2]. simpl in *.
  rewrite IH. exact K.
Qed.

Lemma _process_section_keeps section : keeps f (_process_section W self section).
Proof.
  intros s. unfold _process_section.
  destruct (section_all section) as [e | media_items]; [reflexivity | ].
  destruct (max_workers (config self) <=? 0)%Z; [reflexivity | ].
  pose proof (run_workers_keeps (as_completed W media_items) s) as K.
  destruct (run_workers W self _ s) as [futs s']. exact K.
Qed.

End WorkerFrame.

Lemma results_log_ignores_io : ignores_io results_log.
Proof. intros c h e r s. reflexivity. Qed.

Lemma connect_count_ignores_io : ignores_io connect_count.
Proof. intros c h e r s. reflexivity. Qed.

(** ** The sections of the library *)

Section LibraryFacts.

Variable W : World.
Variable self : PlexSummaryUpdater.

(** With its items enumerated and a pool that can be built, a section
    returns the titles of its items in completion order, each with an
    outcome. *)
Lemma _process_section_results section media_items s :
  section_all section = inr media_items ->
  (0 < max_workers (config self))%Z ->
  exists outcomes s',
    _process_section W self section s
    = (Ok (combine (map title (as_completed W media_items)) outcomes), s')
    /\ length outcomes = length (as_completed W media_items).
Proof.
  intros Hall Hpos. unfold _process_section. rewrite Hall.
  destruct (Z.leb_spec (max_workers (config self)) 0) as [Hle | _]; [lia | ].
  destruct (run_workers_spec W self (as_completed W media_items) s)
    as [outcomes [Hfuts Hlen]].
  destruct (run_workers W self (as_completed W media_items) s) as [futs s'].
  simpl in Hfuts. subst futs. exists outcomes, s'.
  rewrite collect_results_map_Ok. split; [reflexivity | exact Hlen].
Qed.

(** A section whose enumeration raises raises the same, and nothing has
    happened. *)
Lemma _process_section_unreadable section e s :
  section_all section = inl e ->
  _process_section W self section s = (Raise e, s).
Proof.
  intros Hall. unfold _process_section. rewrite Hall. reflexivity.
Qed.

Lemma count_updated_le results : (count_updated results <= length results)%nat.
Proof. unfold count_updated. apply filter_length_le. Qed.

End LibraryFacts.

(** X5. [update_library] skips the sections that are neither of movies nor
    of shows, wherever they stand: it runs as on the library without them. *)
Theorem update_library_ignores_other_sections :
  forall W self sections s,
    update_library_loop W self sections s
    = update_library_loop W self (filter supported sections) s.
Proof.
  intros W self sections. induction sections as [ | section rest IH]; intros s.
  - reflexivity.
  - cbn [filter]. unfold supported at 1.
    destruct ((section_type section =? "movie") || (section_type section =? "show")) eqn:E.
    + cbn [update_library_loop]. rewrite E. cbn [negb]. unfold bind.
      destruct (_process_section W self section s) as [[results | e] s1]; [ | reflexivity].
      destruct results as [ | r results]; [apply IH | ].
      destruct (_log_results (section_title section) (r :: results) s1) as [[[] | e] s2];
        [apply IH | reflexivity].
    + cbn [update_library_loop]. rewrite E. cbn [negb]. apply IH.
Qed.

(** X6. With a pool that can be built, every submitted item completing and
    every section of movies or shows enumerated, [update_library_loop]
    returns; it logs one line for each section of movies or shows that holds
    an item, in the order of the library, with the title of the section and
    the number of its items as total, the count of updated items never above
    the total; it logs nothing for the other sections nor for the empty
    ones. *)
Theorem update_library_logs_each_nonempty_section :
  forall W self sections s,
    (0 < max_workers (config self))%Z ->
    (forall l, length (as_completed W l) = length l) ->
    Forall readable sections ->
    exists s' lines,
      update_library_loop W self sections s = (Ok tt, s')
      /\ results_log s' = (lines ++ results_log s)%list
      /\ map (fun line => (fst (fst line), snd line)) lines
         = rev (map (fun section => (section_title section, length (items_of section)))
                    (logged_sections sections))
      /\ Forall (fun line => (snd (fst line) <= snd line)%nat) lines.
Proof.
  intros W self sections s Hpos Hlen Hread. revert s.
  induction Hread as [ | section rest Hsec Hrest IH]; intros s.
  - exists s, []. repeat split. constructor.
  - cbn [update_library_loop logged_sections filter].
    unfold readable, supported in Hsec. unfold supported at 1.
    destruct ((section_type section =? "movie") || (section_type section =? "show")) eqn:E;
      cbn [negb andb]; [ | apply IH].
    destruct (Hsec eq_refl) as [media_items Hall].
    unfold bind.
    destruct (_process_section_results W self section media_items s Hall Hpos)
      as [outcomes [s1 [Hrun Hout]]].
    pose proof (_process_section_keeps W self results_log results_log_ignores_io section s)
      as K.
    rewrite Hrun in K. cbn [snd] in K. rewrite Hrun.
    remember (combine (map title (as_completed W media_items)) outcomes)
      as results eqn:Hresults.
    assert (Hres_len : length results = length media_items).
    { subst results. unfold UpdateResult.
      rewrite length_combine, length_map, Hout, Nat.min_id. apply Hlen. }
    assert (Hitems : items_of section = media_items)
      by (unfold items_of; rewrite Hall; reflexivity).
    rewrite Hitems.
    destruct results as [ | r results]; destruct media_items as [ | item items];
      try discriminate Hres_len.
    + destruct (IH s1) as [s' [lines [Hloop [Hlog [Hmap Hforall]]]]].
      exists s', lines. rewrite <- K. repeat split; assumption.
    + unfold _log_results at 1.
      set (s2 := mkState _ _ _ _ _ _ _).
      destruct (IH s2) as [s' [lines [Hloop [Hlog [Hmap Hforall]]]]].
      exists s', (lines ++ [(section_title section, count_updated (r :: results),
                             length (r :: results))])%list.
      split; [exact Hloop | split; [ | split]].
      * rewrite Hlog. subst s2. cbn [results_log]. rewrite K, <- app_assoc. reflexivity.
      * rewrite map_app, Hmap. cbn [map rev fst snd].
        rewrite Hres_len, Hitems. reflexivity.
      * apply Forall_app. split; [exact Hforall | ].
        constructor; [ | constructor]. cbn [fst snd]. apply count_updated_le.
Qed.

Lemma update_library_logs_each_nonempty_section_witness :
  exists s',
    update_library_loop world_record updater [photos; movies] initial_state = (Ok tt, s')
    /\ map (fun line => (fst (fst line), snd line)) (results_log s') = [("Movies", 3%nat)].
Proof.
  destruct (update_library_logs_each_nonempty_section world_record updater [photos; movies]
              initial_state) as [s' [lines [Hrun [Hlog [Hmap _]]]]].
  - reflexivity.
  - intros l. reflexivity.
  - repeat constructor; intros _; eexists; reflexivity.
  - exists s'. split; [exact Hrun | ].
    rewrite Hlog, app_nil_r. exact Hmap.
Defined.

(** ** Writes *)

(** What [_update_item] has written, by its outcome. *)
Lemma _update_item_edit_log W self item s t outcome s' :
  _update_item W self item s = (Ok (t, outcome), s') ->
  ((edit_log s' = edit_log s /\ outcome <> "Updated")
   \/ (exists v,
         v <> JStr (summary item)
         /\ edit_log s' = (item, v) :: edit_log s
         /\ outcome <> "No change needed"
         /\ outcome <> "No TMDB match found"))
  /\ (outcome = "Updated" \/ outcome = "No change needed"
      \/ outcome = "No TMDB match found" \/ prefix "Error: " outcome = true).
Proof.
  pose proof (_get_tmdb_data_keeps_edit_log W self item s) as K.
  assert (Herr : forall m, prefix "Error: " ("Error: " ++ m) = true)
    by (intros m; simpl; destruct m; reflexivity).
  unfold _update_item, try_except, _update_item_try, bind, lift, ret, edit_summary.
  destruct (_get_tmdb_data W self item s) as [[data | e] s1]; simpl in K.
  - destruct (negb (Py.truthy data)).
    + intros [= <- <- <-]. split.
      * left. split; [exact K | discriminate].
      * right. right. left. reflexivity.
    + destruct (Py.getitem data "overview") as [ov | e].
      * destruct (Py.str_ne (summary item) ov) eqn:Hne.
        -- apply str_ne_true in Hne.
           destruct (plex_edit W (length (edit_log s1)) item ov) as [e | ].
           ++ intros [= <- <- <-]. cbn [edit_log]. split.
              ** right. exists ov. rewrite K.
                 repeat split; [exact Hne | discriminate | discriminate].
              ** right. right. right. apply Herr.
           ++ intros [= <- <- <-]. cbn [edit_log]. split.
              ** right. exists ov. rewrite K.
                 repeat split; [exact Hne | discriminate | discriminate].
              ** left. reflexivity.
        -- intros [= <- <- <-]. split.
           ++ left. split; [exact K | discriminate].
           ++ right. left. reflexivity.
      * intros [= <- <- <-]. split.
        -- left. split; [exact K | discriminate].
        -- right. right. right. apply Herr.
  - intros [= <- <- <-]. split.
    + left. split; [exact K | discriminate].
    + right. right. right. apply Herr.
Qed.

(** X7. [_update_item] writes at most once, and only to the item it was
    given, a value that differs from the item's summary.  It has written when
    it reports "Updated" and has not when it reports "No change needed" or
    "No TMDB match found".  Its outcome is one of these three labels or
    begins with "Error: ". *)
Theorem update_item_writes_only_when_updated :
  forall W self item s t outcome s',
    _update_item W self item s = (Ok (t, outcome), s') ->
    (edit_log s' = edit_log s
     \/ exists v, v <> JStr (summary item) /\ edit_log s' = (item, v) :: edit_log s)
    /\ (outcome = "Updated" ->
        exists v, v <> JStr (summary item) /\ edit_log s' = (item, v) :: edit_log s)
    /\ (outcome = "No change needed" \/ outcome = "No TMDB match found" ->
        edit_log s' = edit_log s)
    /\ (outcome = "Updated" \/ outcome = "No change needed"
        \/ outcome = "No TMDB match found" \/ prefix "Error: " outcome = true).
Proof.
  intros W self item s t outcome s' Hrun.
  destruct (_update_item_edit_log W self item s t outcome s' Hrun) as [Hlog Hlabel].
  split; [ | split; [ | split]].
  - destruct Hlog as [[Hsame _] | [v [Hne [Hw _]]]]; [left; exact Hsame | right].
    exists v. split; assumption.
  - intros Hupd. destruct Hlog as [[_ Hno] | [v [Hne [Hw _]]]]; [contradiction | ].
    exists v. split; assumption.
  - intros Hlab. destruct Hlog as [[Hsame _] | [v [_ [_ [Hn1 Hn2]]]]]; [exact Hsame | ].
    destruct Hlab; contradiction.
  - exact Hlabel.
Qed.

Lemma update_item_writes_only_when_updated_witness :
  exists v,
    edit_log (snd (_update_item world_record updater matrix_stale initial_state))
    = [(matrix_stale, v)].
Proof.
  destruct (update_item_writes_only_when_updated world_record updater matrix_stale
              initial_state "The Matrix" "Updated" _ eq_refl) as [_ [Hupd _]].
  destruct (Hupd eq_refl) as [v [_ Hlog]]. exists v. exact Hlog.
Defined.

Lemma count_updated_cons r results :
  count_updated (r :: results)
  = ((if (snd r =? "Updated")%string then 1 else 0) + count_updated results)%nat.
Proof.
  unfold count_updated. simpl. destruct (snd r =? "Updated"); reflexivity.
Qed.

(** The writes of a pool: at most one per worker, each to the worker's item,
    and at least one for every "Updated". *)
Lemma run_workers_writes W self completed :
  forall s futs s',
    run_workers W self completed s = (futs, s') ->
    exists writes,
      edit_log s' = (writes ++ edit_log s)%list
      /\ (count_updated (collect_results futs) <= length writes)%nat
      /\ (length writes <= length completed)%nat
      /\ forall w, In w writes -> In (fst w) completed.
Proof.
  induction completed as [ | item rest IH]; intros s futs s'.
  - intros [= <- <-]. exists []. repeat split; simpl; auto.
  - cbn [run_workers].
    destruct (_update_item_total W self item s) as [outcome [s1 H1]]. rewrite H1.
    destruct (run_workers W self rest s1) as [rs s2] eqn:Hrest.
    intros [= <- <-].
    destruct (IH s1 rs s2 Hrest) as [writes [Hlog [Hcount [Hlen Hin]]]].
    destruct (_update_item_edit_log W self item s _ outcome s1 H1) as [Hone _].
    cbn [collect_results]. rewrite count_updated_cons. cbn [snd].
    destruct Hone as [[Hsame Hno] | [v [_ [Hw _]]]].
    + exists writes. rewrite Hlog, Hsame. repeat split.
      * destruct (String.eqb_spec outcome "Updated") as [Heq | _]; [contradiction | ].
        simpl. lia.
      * simpl. lia.
      * intros w Hw. right. apply Hin, Hw.
    + exists (writes ++ [(item, v)])%list. rewrite Hlog, Hw, <- app_assoc. repeat split.
      * rewrite length_app. simpl. destruct (outcome =? "Updated"); lia.
      * rewrite length_app. simpl. lia.
      * intros w Hin'. apply in_app_or in Hin'. destruct Hin' as [Hin' | [<- | []]].
        -- right. apply Hin, Hin'.
        -- left. reflexivity.
Qed.

(** What each worker of a pool has written. *)
Lemma run_workers_written W self completed :
  forall s futs s',
    run_workers W self completed s = (futs, s') ->
    exists written,
      length written = length completed
      /\ edit_log s' = (writes_of completed written ++ edit_log s)%list
      /\ Forall2 (fun result w =>
                    (snd result = "Updated" -> w <> None)
                    /\ (snd result = "No change needed"
                        \/ snd result = "No TMDB match found" -> w = None))
                 (collect_results futs) written.
Proof.
  induction completed as [ | item rest IH]; intros s futs s'.
  - intros [= <- <-]. exists []. repeat split. constructor.
  - cbn [run_workers].
    destruct (_update_item_total W self item s) as [outcome [s1 H1]]. rewrite H1.
    destruct (run_workers W self rest s1) as [rs s2] eqn:Hrest.
    intros [= <- <-].
    destruct (IH s1 rs s2 Hrest) as [written [Hlen [Hlog Hall]]].
    destruct (_update_item_edit_log W self item s _ outcome s1 H1) as [Hone _].
    cbn [collect_results].
    destruct Hone as [[Hsame Hno] | [v [_ [Hw [Hn1 Hn2]]]]].
    + exists (None :: written). cbn [length writes_of]. rewrite Hlen, Hlog, Hsame.
      repeat split. constructor; [ | exact Hall]. cbn [snd]. split.
      * intros Hupd. contradiction.
      * reflexivity.
    + exists (Some v :: written). cbn [length writes_of].
      rewrite Hlen, Hlog, Hw, <- app_assoc.
      repeat split. constructor; [ | exact Hall]. cbn [snd]. split.
      * discriminate.
      * intros [H | H]; contradiction.
Qed.

(** X8. In a section each worker, one per item in the order of completion,
    writes at most once and to its own item: the writes of the section are
    those of [writes_of].  A worker that reports "Updated" has written, one
    that reports "No change needed" or "No TMDB match found" has not, so the
    count that is logged as changed never exceeds the number of writes. *)
Theorem section_writes_at_most_once_per_item :
  forall W self section media_items s results s',
    section_all section = inr media_items ->
    _process_section W self section s = (Ok results, s') ->
    exists written,
      length written = length (as_completed W media_items)
      /\ edit_log s'
         = (writes_of (as_completed W media_items) written ++ edit_log s)%list
      /\ Forall2 (fun result w =>
                    (snd result = "Updated" -> w <> None)
                    /\ (snd result = "No change needed"
                        \/ snd result = "No TMDB match found" -> w = None))
                 results written
      /\ (count_updated results
          <= length (writes_of (as_completed W media_items) written))%nat.
Proof.
  intros W self section media_items s results s' Hall. unfold _process_section.
  rewrite Hall.
  destruct (max_workers (config self) <=? 0)%Z; [discriminate | ].
  destruct (run_workers W self (as_completed W media_items) s) as [futs s2] eqn:Hrun.
  intros [= <- <-].
  destruct (run_workers_written W self _ s futs s2 Hrun) as [written [Hlen [Hlog Hforall]]].
  destruct (run_workers_writes W self _ s futs s2 Hrun) as [writes [Hlog' [Hcount _]]].
  exists written. repeat split; [exact Hlen | exact Hlog | exact Hforall | ].
  rewrite Hlog in Hlog'. apply app_inv_tail in Hlog'. rewrite Hlog'. exact Hcount.
Qed.

Lemma section_writes_at_most_once_per_item_witness :
  exists v,
    edit_log (snd (_process_section world_reversed updater movies initial_state))
    = [(matrix_stale, v)].
Proof.
  destruct (_process_section world_reversed updater movies initial_state)
    as [[results | e] s'] eqn:Hrun; [ | discriminate Hrun].
  destruct (section_writes_at_most_once_per_item world_reversed updater movies
              [matrix_fresh; matrix_stale; home_video] initial_state results s' eq_refl Hrun)
    as [written [Hlen [Hlog [Hforall _]]]].
  cbn [snd]. rewrite Hlog, app_nil_r.
  assert (Hresults : results = [("Holiday 2019", "No TMDB match found");
                                ("The Matrix", "Updated");
                                ("The Matrix", "No change needed")])
    by (injection Hrun as <- _; reflexivity).
  subst results.
  inversion Hforall as [ | r1 w1 rs1 ws1 [_ H1] Hrest1]; subst.
  inversion Hrest1 as [ | r2 w2 rs2 ws2 [H2 _] Hrest2]; subst.
  inversion Hrest2 as [ | r3 w3 rs3 ws3 [_ H3] Hrest3]; subst.
  inversion Hrest3; subst.
  rewrite (H1 (or_intror eq_refl)), (H3 (or_introl eq_refl)).
  destruct w2 as [v | ]; [ | exfalso; apply (H2 eq_refl); reflexivity].
  exists v. reflexivity.
Defined.

(** ** Failures of a request *)

Section RequestFailures.

Variable W : World.
Variable self : PlexSummaryUpdater.

(** The HTTP exchange never lets a [RequestException] through. *)
Lemma exchange_raises sess url params verify kwargs s e s' :
  try_except is_RequestException
    (response <- session_get_call W sess url params verify kwargs ;;
     lift (raise_for_status response) ;;
     lift (response_json response))
    (fun e => raise (TMDBError ("TMDB API request failed: " ++ str e))) s = (Raise e, s') ->
  is_RequestException e = false.
Proof.
  unfold try_except, raise.
  destruct (bind _ _ s) as [[v | e0] s0]; [discriminate | ].
  destruct (is_RequestException e0) eqn:E.
  - intros [= <- _]. reflexivity.
  - intros [= <- _]. exact E.
Qed.

Lemma make_tmdb_request_raises endpoint params kwargs s e s' :
  make_tmdb_request W self endpoint params kwargs s = (Raise e, s') ->
  is_RequestException e = false /\ cache s' = cache s.
Proof.
  intros Hrun.
  assert (Hcache : cache s' = cache s).
  { destruct kwargs as [ | kw kwargs].
    - revert Hrun.
      unfold make_tmdb_request, bind, record_request, _make_tmdb_request_cached, lru_cache.
      cbn [cache]. destruct (cache_get _ (cache s)); [discriminate | ].
      set (s0 := mkState _ _ _ _ _ _ _).
      pose proof (wrapped_keeps_cache W self (endpoint, sorted_items params) s0) as K.
      destruct (_make_tmdb_request_cached__wrapped W self _ s0) as [[v | e0] s1];
        [discriminate | ].
      intros [= _ <-]. exact K.
    - pose proof (make_tmdb_request_bypass W self endpoint params kw kwargs s) as K.
      rewrite Hrun in K. exact K. }
  split; [ | exact Hcache].
  revert Hrun. unfold make_tmdb_request, bind, record_request.
  destruct kwargs as [ | kw kwargs].
  - unfold _make_tmdb_request_cached, lru_cache. cbn [cache].
    destruct (cache_get _ (cache s)); [discriminate | ].
    unfold _make_tmdb_request_cached__wrapped.
    match goal with
    | |- context [try_except ?c ?b ?h ?st] =>
        destruct (try_except c b h st) as [[v | e0] s1] eqn:Hx
    end; [discriminate | ].
    intros [= <- _]. exact (exchange_raises _ _ _ _ _ _ _ _ Hx).
  - apply exchange_raises.
Qed.

End RequestFailures.

Section RequestMiss.

Variable W : World.
Variable self : PlexSummaryUpdater.

(** What a request answers when the transport raises, on either path. *)
Lemma make_tmdb_request_transport_raises endpoint params kwargs s e :
  assoc "verify" kwargs = None ->
  (kwargs <> [] \/ cache_get (endpoint, sorted_items params) (cache s) = None) ->
  session_get W (length (http_log s))
    (prepare_request (session self)
       (mkCall (tmdb_base_url (config self) ++ "/" ++ endpoint)
               (match kwargs with [] => sorted_items params | _ => params end)
               (verify_ssl (config self)) kwargs)) = inl e ->
  fst (make_tmdb_request W self endpoint params kwargs s)
  = Raise (if is_RequestException e
           then TMDBError ("TMDB API request failed: " ++ str e)
           else e).
Proof.
  intros Hv Hmiss Hget.
  unfold make_tmdb_request, bind, record_request.
  destruct kwargs as [ | kw kwargs].
  - destruct Hmiss as [Hne | Hmiss]; [contradiction | ].
    unfold _make_tmdb_request_cached, lru_cache. cbn [cache]. rewrite Hmiss.
    unfold _make_tmdb_request_cached__wrapped, try_except, bind, session_get_call.
    cbn [assoc http_log]. rewrite Hget.
    destruct (is_RequestException e); reflexivity.
  - unfold try_except, bind, session_get_call. rewrite Hv. cbn [http_log]. rewrite Hget.
    destruct (is_RequestException e); reflexivity.
Qed.

(** A request without extra options that is not in the cache calls the
    transport, with the parameters sorted by key. *)
Lemma make_tmdb_request_miss_calls endpoint params s :
  cache_get (endpoint, sorted_items params) (cache s) = None ->
  http_log (snd (make_tmdb_request W self endpoint params [] s))
  = mkCall (tmdb_base_url (config self) ++ "/" ++ endpoint) (sorted_items params)
           (verify_ssl (config self)) [] :: http_log s.
Proof.
  intros Hmiss.
  unfold make_tmdb_request, bind, record_request, _make_tmdb_request_cached, lru_cache.
  cbn [cache]. rewrite Hmiss.
  unfold _make_tmdb_request_cached__wrapped, try_except, bind, session_get_call.
  cbn [assoc http_log].
  destruct (session_get W _ _) as [e | r].
  - destruct (is_RequestException e); reflexivity.
  - unfold lift. destruct (raise_for_status r) as [[] | e].
    + destruct (response_json r) as [v | e]; [reflexivity | ].
      destruct (is_RequestException e); reflexivity.
    + destruct (is_RequestException e); reflexivity.
Qed.

(** A request without extra options that raised was not in the cache. *)
Lemma make_tmdb_request_raise_was_miss endpoint params s e s1 :
  make_tmdb_request W self endpoint params [] s = (Raise e, s1) ->
  cache_get (endpoint, sorted_items params) (cache s) = None.
Proof.
  unfold make_tmdb_request, bind, record_request, _make_tmdb_request_cached, lru_cache.
  cbn [cache]. destruct (cache_get _ (cache s)); [discriminate | reflexivity].
Qed.

End RequestMiss.

(** X9. [make_tmdb_request] never raises a [RequestException].  When the
    transport is called and raises one, the request raises [TMDBError] with
    the message "TMDB API request failed: " followed by the message of the
    cause; an exception of another class goes through unchanged. *)
Theorem request_failures_are_TMDBError :
  forall W self endpoint params kwargs s,
    (forall e s',
        make_tmdb_request W self endpoint params kwargs s = (Raise e, s') ->
        is_RequestException e = false)
    /\ (forall e,
          assoc "verify" kwargs = None ->
          (kwargs <> [] \/ cache_get (endpoint, sorted_items params) (cache s) = None) ->
          session_get W (length (http_log s))
            (prepare_request (session self)
               (mkCall (tmdb_base_url (config self) ++ "/" ++ endpoint)
                       (match kwargs with [] => sorted_items params | _ => params end)
                       (verify_ssl (config self)) kwargs)) = inl e ->
          (forall msg, e = RequestException msg ->
             fst (make_tmdb_request W self endpoint params kwargs s)
             = Raise (TMDBError ("TMDB API request failed: " ++ msg)))
          /\ (is_RequestException e = false ->
              fst (make_tmdb_request W self endpoint params kwargs s) = Raise e)).
Proof.
  intros W self endpoint params kwargs s. split.
  - intros e s' Hrun.
    exact (proj1 (make_tmdb_request_raises W self endpoint params kwargs s e s' Hrun)).
  - intros e Hv Hmiss Hget.
    pose proof (make_tmdb_request_transport_raises W self endpoint params kwargs s e
                  Hv Hmiss Hget) as Hrun.
    split.
    + intros msg ->. exact Hrun.
    + intros Hcls. rewrite Hcls in Hrun. exact Hrun.
Qed.

Lemma request_failures_are_TMDBError_witness :
  fst (make_tmdb_request world_offline updater "movie/603" [] [] initial_state)
  = Raise (TMDBError "TMDB API request failed: Connection timed out").
Proof.
  destruct (request_failures_are_TMDBError world_offline updater "movie/603" [] []
              initial_state) as [_ Htranslate].
  destruct (Htranslate (RequestException "Connection timed out") eq_refl
              (or_intror eq_refl) eq_refl) as [Hreq _].
  exact (Hreq "Connection timed out" eq_refl).
Defined.

(** X10. A request that raised is not memoized: the cache is as before, and
    the same request issued next calls the transport again. *)
Theorem failed_request_is_not_memoized :
  forall W self endpoint params params' s e s1,
    make_tmdb_request W self endpoint params [] s = (Raise e, s1) ->
    sorted_items params' = sorted_items params ->
    cache s1 = cache s
    /\ http_log (snd (make_tmdb_request W self endpoint params' [] s1))
       = mkCall (tmdb_base_url (config self) ++ "/" ++ endpoint) (sorted_items params)
                (verify_ssl (config self)) [] :: http_log s1.
Proof.
  intros W self endpoint params params' s e s1 Hrun Hkey.
  destruct (make_tmdb_request_raises W self endpoint params [] s e s1 Hrun) as [_ Hcache].
  split; [exact Hcache | ].
  rewrite <- Hkey. apply make_tmdb_request_miss_calls.
  rewrite Hkey, Hcache.
  exact (make_tmdb_request_raise_was_miss W self endpoint params s e s1 Hrun).
Qed.

Lemma failed_request_is_not_memoized_witness :
  length (http_log
            (snd (make_tmdb_request world_not_found updater "movie/603" [] []
                    (snd (make_tmdb_request world_not_found updater "movie/603" [] []
                            initial_state)))))
  = 2%nat.
Proof.
  destruct (make_tmdb_request world_not_found updater "movie/603" [] [] initial_state)
    as [[v | e] s1] eqn:Hrun; [discriminate Hrun | ].
  destruct (failed_request_is_not_memoized world_not_found updater "movie/603" [] []
              initial_state e s1 Hrun eq_refl) as [_ Hlog].
  cbn [snd]. rewrite Hlog.
  injection Hrun as _ <-. reflexivity.
Defined.

(** ** The order of the parameters *)

Lemma ascii_compare_lt_trans a b c :
  Ascii.compare a b = Lt -> Ascii.compare b c = Lt -> Ascii.compare a c = Lt.
Proof. unfold Ascii.compare. rewrite !N.compare_lt_iff. lia. Qed.

Lemma string_compare_lt_trans a :
  forall b c,
    String.compare a b = Lt -> String.compare b c = Lt -> String.compare a c = Lt.
Proof.
  induction a as [ | x a IH]; intros [ | y b] [ | z c]; simpl; try congruence.
  destruct (Ascii.compare x y) eqn:Hxy; try discriminate.
  - apply Ascii.compare_eq_iff in Hxy. subst y.
    destruct (Ascii.compare x z); try congruence. apply IH.
  - intros _. destruct (Ascii.compare y z) eqn:Hyz; try discriminate.
    + apply Ascii.compare_eq_iff in Hyz. subst z. rewrite Hxy. reflexivity.
    + intros _. rewrite (ascii_compare_lt_trans _ _ _ Hxy Hyz). reflexivity.
Qed.

Lemma ltb_trans a b c :
  PyStr.ltb a b = true -> PyStr.ltb b c = true -> PyStr.ltb a c = true.
Proof.
  unfold PyStr.ltb, String.ltb.
  destruct (String.compare a b) eqn:Hab; try discriminate.
  destruct (String.compare b c) eqn:Hbc; try discriminate.
  rewrite (string_compare_lt_trans _ _ _ Hab Hbc). reflexivity.
Qed.

Lemma ltb_asym a b : PyStr.ltb a b = true -> PyStr.ltb b a = false.
Proof.
  unfold PyStr.ltb, String.ltb. rewrite (String.compare_antisym b a).
  destruct (String.compare a b); simpl; congruence.
Qed.

Lemma ltb_total a b : a <> b -> PyStr.ltb a b = false -> PyStr.ltb b a = true.
Proof.
  unfold PyStr.ltb, String.ltb. intros Hne. rewrite (String.compare_antisym b a).
  destruct (String.compare a b) eqn:E; simpl; try congruence.
  apply String.compare_eq_iff in E. contradiction.
Qed.

(** [z] is not below [x] and is below [y]: then [x] is below [y]. *)
Lemma ltb_between x y z :
  PyStr.ltb z x = false -> PyStr.ltb z y = true -> PyStr.ltb x y = true.
Proof.
  intros Hzx Hzy. destruct (string_dec z x) as [<- | Hne]; [exact Hzy | ].
  apply (ltb_trans x z y); [apply ltb_total; assumption | exact Hzy].
Qed.

(** Two items with different keys can be inserted in either order. *)
Lemma insert_item_comm x y l :
  fst x <> fst y ->
  insert_item x (insert_item y l) = insert_item y (insert_item x l).
Proof.
  intros Hne.
  assert (Hxy : PyStr.ltb (fst y) (fst x) = true /\ PyStr.ltb (fst x) (fst y) = false
                \/ PyStr.ltb (fst y) (fst x) = false /\ PyStr.ltb (fst x) (fst y) = true).
  { destruct (PyStr.ltb (fst y) (fst x)) eqn:Hyx.
    - left. split; [reflexivity | apply ltb_asym, Hyx].
    - right. split; [reflexivity | apply ltb_total; [congruence | exact Hyx]]. }
  induction l as [ | z l IH].
  - cbn [insert_item]. destruct Hxy as [[-> ->] | [-> ->]]; reflexivity.
  - cbn [insert_item].
    destruct (PyStr.ltb (fst z) (fst y)) eqn:Hzy, (PyStr.ltb (fst z) (fst x)) eqn:Hzx;
      cbn [insert_item]; rewrite ?Hzy, ?Hzx.
    + rewrite IH. reflexivity.
    + rewrite (ltb_between _ _ _ Hzx Hzy). reflexivity.
    + rewrite (ltb_between _ _ _ Hzy Hzx). reflexivity.
    + destruct Hxy as [[-> ->] | [-> ->]]; cbn [insert_item]; rewrite ?Hzy, ?Hzx;
        reflexivity.
Qed.

Lemma insert_item_perm x l : Permutation (insert_item x l) (x :: l).
Proof.
  induction l as [ | y l IH]; simpl; [reflexivity | ].
  destruct (PyStr.ltb (fst y) (fst x)); [ | reflexivity].
  rewrite IH. apply perm_swap.
Qed.

Lemma sorted_items_perm l : Permutation (sorted_items l) l.
Proof.
  induction l as [ | x l IH]; simpl; [reflexivity | ].
  rewrite insert_item_perm. apply perm_skip, IH.
Qed.

(** Dicts with the same items, whatever their order, sort to the same
    tuple. *)
Lemma sorted_items_of_permutation l l' :
  Permutation l l' -> NoDup (map fst l) -> sorted_items l = sorted_items l'.
Proof.
  intros Hperm. induction Hperm as [ | x l l' Hperm IH | x y l | l l' l'' H1 IH1 H2 IH2];
    intros Hnd.
  - reflexivity.
  - simpl. rewrite IH; [reflexivity | ]. inversion Hnd. assumption.
  - simpl. apply insert_item_comm.
    inversion Hnd as [ | k ks Hnotin _]. subst. intros E. apply Hnotin. left.
    symmetry. exact E.
  - rewrite IH1 by exact Hnd. apply IH2.
    apply (Permutation_NoDup (Permutation_map fst H1) Hnd).
Qed.

(** X11. Memoization does not depend on the order in which the caller gives
    the parameters: after a request that returned, the request with the same
    endpoint and the same parameters in another order returns the same value
    from the cache and makes no transport call. *)
Theorem memoization_ignores_parameter_order :
  forall W self endpoint params params' v s s1,
    NoDup (map fst params) ->
    Permutation params params' ->
    make_tmdb_request W self endpoint params [] s = (Ok v, s1) ->
    fst (make_tmdb_request W self endpoint params' [] s1) = Ok v
    /\ http_log (snd (make_tmdb_request W self endpoint params' [] s1)) = http_log s1.
Proof.
  intros W self endpoint params params' v s s1 Hnd Hperm Hrun.
  apply make_tmdb_request_hit.
  rewrite <- (sorted_items_of_permutation params params' Hperm Hnd).
  apply (cached_at_get _ _ 0).
  exact (make_tmdb_request_caches W self endpoint params s v s1 Hrun).
Qed.

Lemma memoization_ignores_parameter_order_witness :
  length (http_log
            (snd (make_tmdb_request world_no_results updater "search/tv"
                    [("year", PInt 2019); ("query", PStr "Holiday")] []
                    (snd (make_tmdb_request world_no_results updater "search/tv"
                            [("query", PStr "Holiday"); ("year", PInt 2019)] []
                            initial_state)))))
  = 1%nat.
Proof.
  destruct (make_tmdb_request world_no_results updater "search/tv"
              [("query", PStr "Holiday"); ("year", PInt 2019)] [] initial_state)
    as [[v | e] s1] eqn:Hrun; [ | discriminate Hrun].
  destruct (memoization_ignores_parameter_order world_no_results updater "search/tv"
              [("query", PStr "Holiday"); ("year", PInt 2019)]
              [("year", PInt 2019); ("query", PStr "Holiday")] v initial_state s1)
    as [_ Hlog].
  - repeat constructor; simpl; intuition discriminate.
  - apply perm_swap.
  - exact Hrun.
  - cbn [snd]. rewrite Hlog. injection Hrun as _ <-. reflexivity.
Defined.

(** The sorted items stand in ascending order of their keys. *)
Lemma insert_item_sorted x l :
  StronglySorted (fun a b => PyStr.ltb (fst a) (fst b) = true) l ->
  (forall y, In y l -> fst y <> fst x) ->
  StronglySorted (fun a b => PyStr.ltb (fst a) (fst b) = true) (insert_item x l).
Proof.
  intros Hsorted. induction Hsorted as [ | y l Hl IH Hy]; intros Hfresh.
  - cbn [insert_item]. constructor; constructor.
  - cbn [insert_item]. destruct (PyStr.ltb (fst y) (fst x)) eqn:Hyx.
    + constructor.
      * apply IH. intros z Hz. apply Hfresh. right. exact Hz.
      * apply (Permutation_Forall (Permutation_sym (insert_item_perm x l))).
        constructor; [exact Hyx | exact Hy].
    + assert (Hxy : PyStr.ltb (fst x) (fst y) = true).
      { apply ltb_total; [ | exact Hyx]. apply Hfresh. left. reflexivity. }
      constructor; [constructor; assumption | ].
      constructor; [exact Hxy | ].
      apply Forall_forall. intros z Hz.
      apply (ltb_trans _ (fst y)); [exact Hxy | ].
      exact (proj1 (Forall_forall _ _) Hy z Hz).
Qed.

Lemma sorted_items_sorted l :
  NoDup (map fst l) ->
  StronglySorted (fun a b => PyStr.ltb (fst a) (fst b) = true) (sorted_items l).
Proof.
  induction l as [ | x l IH]; intros Hnd; cbn [sorted_items]; [constructor | ].
  inversion Hnd as [ | k ks Hnotin Hnd']. subst.
  apply insert_item_sorted; [apply IH, Hnd' | ].
  intros y Hy E. apply Hnotin. rewrite <- E. apply in_map.
  apply (Permutation_in _ (sorted_items_perm l)), Hy.
Qed.

(** Merging into a session parameters that the session does not have. *)
Lemma dict_set_fresh k v d :
  ~ In k (map fst d) -> dict_set k v d = (d ++ [(k, v)])%list.
Proof.
  induction d as [ | [k' v'] d IH]; intros Hfresh; cbn [dict_set app]; [reflexivity | ].
  destruct (String.eqb_spec k' k) as [-> | _].
  - exfalso. apply Hfresh. left. reflexivity.
  - rewrite IH; [reflexivity | ]. intros Hin. apply Hfresh. right. exact Hin.
Qed.

Lemma dict_update_fresh items :
  forall d,
    NoDup (map fst items) ->
    (forall k, In k (map fst items) -> ~ In k (map fst d)) ->
    dict_update d items = (d ++ items)%list.
Proof.
  unfold dict_update. induction items as [ | [k v] items IH]; intros d Hnd Hfresh.
  - cbn. rewrite app_nil_r. reflexivity.
  - cbn [fold_left fst snd]. inversion Hnd as [ | k0 ks Hnotin Hnd']. subst.
    rewrite dict_set_fresh by (apply Hfresh; left; reflexivity).
    rewrite IH; [rewrite <- app_assoc; reflexivity | exact Hnd' | ].
    intros k' Hk' Hin. rewrite map_app in Hin. apply in_app_or in Hin.
    destruct Hin as [Hin | [<- | []]].
    + apply (Hfresh k'); [right; exact Hk' | exact Hin].
    + apply Hnotin, Hk'.
Qed.

(** X12. On a cache miss of a request without extra options, made by an
    updater with the session of the constructor, [session.get] is called
    once, with the parameters of the caller in ascending order of their keys
    (distinct, none of them api_key); the request that is sent carries the
    api_key of the session first, then those of these parameters whose value
    is not [None]. *)
Theorem cached_path_sends_all_parameters :
  forall W self endpoint params s,
    session self = _init_tmdb_session (config self) ->
    NoDup (map fst params) ->
    ~ In "api_key" (map fst params) ->
    cache_get (endpoint, sorted_items params) (cache s) = None ->
    exists call,
      http_log (snd (make_tmdb_request W self endpoint params [] s)) = call :: http_log s
      /\ call_url call = tmdb_base_url (config self) ++ "/" ++ endpoint
      /\ call_verify call = verify_ssl (config self)
      /\ Permutation (call_params call) params
      /\ StronglySorted (fun a b => PyStr.ltb (fst a) (fst b) = true) (call_params call)
      /\ sent_log (snd (make_tmdb_request W self endpoint params [] s))
         = mkCall (tmdb_base_url (config self) ++ "/" ++ endpoint)
                  (("api_key", PStr (tmdb_api_key (config self)))
                     :: filter (fun kv => negb (is_None (snd kv))) (call_params call))
                  (verify_ssl (config self)) []
           :: sent_log s.
Proof.
  intros W self endpoint params s Hsession Hnd Hkey Hmiss.
  destruct (make_tmdb_request_miss W self endpoint params s Hmiss) as [Hlog [Hsent _]].
  eexists. split; [exact Hlog | ].
  cbn [call_url call_verify call_params].
  split; [reflexivity | split; [reflexivity | ]].
  split; [apply sorted_items_perm | ].
  split; [apply sorted_items_sorted, Hnd | ].
  rewrite Hsent, Hsession. unfold prepare_request, merge_setting, _init_tmdb_session.
  cbn [call_url call_verify call_params call_kwargs session_params].
  assert (Hkeys : Permutation (map fst (sorted_items params)) (map fst params))
    by (apply Permutation_map, sorted_items_perm).
  rewrite dict_update_fresh.
  - reflexivity.
  - apply (Permutation_NoDup (Permutation_sym Hkeys) Hnd).
  - intros k Hk [<- | []]. apply Hkey. apply (Permutation_in _ Hkeys), Hk.
Qed.

Lemma cached_path_sends_all_parameters_witness :
  map call_params
      (sent_log (snd (make_tmdb_request world_no_results updater "search/tv"
                        [("year", PNone); ("query", PStr "Holiday")] [] initial_state)))
  = [[("api_key", PStr "key"); ("query", PStr "Holiday")]].
Proof.
  destruct (cached_path_sends_all_parameters world_no_results updater "search/tv"
              [("year", PNone); ("query", PStr "Holiday")] initial_state eq_refl)
    as [call [Hlog [_ [_ [_ [_ Hsent]]]]]].
  - repeat constructor; simpl; intuition discriminate.
  - simpl. intuition discriminate.
  - reflexivity.
  - rewrite Hsent.
    assert (Hcall : call = mkCall "https://api.themoviedb.org/3/search/tv"
                                  [("query", PStr "Holiday"); ("year", PNone)] false [])
      by (injection Hlog as <-; reflexivity).
    rewrite Hcall. reflexivity.
Defined.

(** ** The id of a guid *)

(** X13. [_get_tmdb_id] gives back the id of a guid "tmdb://{id}": when the
    first guid that mentions tmdb is "tmdb://" followed by an id free of
    "tmdb://", the result is that id.  The result is [None] exactly when no
    guid mentions tmdb. *)
Theorem get_tmdb_id_reads_the_id :
  forall item,
    (forall pre tmdb_id post,
        guids item = (pre ++ ("tmdb://" ++ tmdb_id)%string :: post)%list ->
        (forall g, In g pre -> PyStr.contains "tmdb" g = false) ->
        PyStr.contains "tmdb://" tmdb_id = false ->
        _get_tmdb_id item = Some tmdb_id)
    /\ (_get_tmdb_id item = None
        <-> forall g, In g (guids item) -> PyStr.contains "tmdb" g = false).
Proof.
  intros item. split.
  - intros pre tmdb_id post Hg Hpre Hfree. unfold _get_tmdb_id. rewrite Hg.
    rewrite _get_tmdb_id_loop_first; [ | exact Hpre | reflexivity].
    rewrite (replace_tmdb_prefix _ Hfree). reflexivity.
  - unfold _get_tmdb_id. split.
    + intros Hnone g Hin. destruct (PyStr.contains "tmdb" g) eqn:E; [ | reflexivity].
      exfalso. revert Hnone Hin. generalize (guids item) as gs.
      induction gs as [ | g' gs IH]; simpl; [intros _ [] | ].
      destruct (PyStr.contains "tmdb" g') eqn:E'; [discriminate | ].
      intros Hnone [-> | Hin]; [congruence | exact (IH Hnone Hin)].
    + apply _get_tmdb_id_loop_none.
Qed.

Lemma get_tmdb_id_reads_the_id_witness :
  _get_tmdb_id matrix_stale = Some "603".
Proof.
  destruct (get_tmdb_id_reads_the_id matrix_stale) as [Hid _].
  apply (Hid ["imdb://tt0133093"] "603" []).
  - reflexivity.
  - intros g [<- | []]. reflexivity.
  - reflexivity.
Defined.

(** ** Responses of the search *)

Section SearchFacts.

Variable W : World.
Variable self : PlexSummaryUpdater.

Lemma _search_tmdb_unfold item s :
  _search_tmdb W self item s
  = match make_tmdb_request W self (req_endpoint (search_call item))
            (req_params (search_call item)) [] s with
    | (Ok response, s1) => (first_result response, s1)
    | (Raise e, s1) => (Raise e, s1)
    end.
Proof.
  unfold _search_tmdb, bind, search_call. cbn [req_endpoint req_params].
  destruct (make_tmdb_request W self _ _ [] s) as [[response | e] s1]; [ | reflexivity].
  unfold first_result. destruct (negb (Py.truthy response)); [reflexivity | ].
  unfold lift. destruct (Py.get response "results" (JList [])); reflexivity.
Qed.

Lemma _get_tmdb_data_search item s :
  (forall g, In g (guids item) -> PyStr.contains "tmdb" g = false) ->
  _get_tmdb_data W self item s = _search_tmdb W self item s.
Proof.
  intros Hnone. apply _get_tmdb_data_without_id. left.
  apply _get_tmdb_id_loop_none, Hnone.
Qed.

End SearchFacts.

(** X14. A search whose response is empty, has no "results" or has an empty
    list of results resolves to [None], and the worker reports
    "No TMDB match found" without writing. *)
Theorem search_without_results_is_no_match :
  forall W self item s response s1,
    (forall g, In g (guids item) -> PyStr.contains "tmdb" g = false) ->
    make_tmdb_request W self (req_endpoint (search_call item))
      (req_params (search_call item)) [] s = (Ok response, s1) ->
    (Py.truthy response = false
     \/ (exists fields, response = JObj fields /\ assoc "results" fields = None)
     \/ (exists fields, response = JObj fields /\ assoc "results" fields = Some (JList []))) ->
    _get_tmdb_data W self item s = (Ok JNull, s1)
    /\ _update_item W self item s = (Ok (title item, "No TMDB match found"), s1)
    /\ edit_log s1 = edit_log s.
Proof.
  intros W self item s response s1 Hnone Hreq Hshape.
  assert (Hfirst : first_result response = Ok JNull).
  { unfold first_result. destruct (Py.truthy response) eqn:Ht; [ | reflexivity].
    destruct Hshape as [Hf | [[fields [-> Hres]] | [fields [-> Hres]]]].
    - discriminate Hf.
    - simpl. rewrite Hres. reflexivity.
    - simpl. rewrite Hres. reflexivity. }
  assert (Hdata : _get_tmdb_data W self item s = (Ok JNull, s1)).
  { rewrite (_get_tmdb_data_search W self item s Hnone), _search_tmdb_unfold, Hreq, Hfirst.
    reflexivity. }
  split; [exact Hdata | split].
  - apply _update_item_of_ok. unfold _update_item_try, bind. rewrite Hdata. reflexivity.
  - pose proof (_get_tmdb_data_keeps_edit_log W self item s) as K.
    rewrite Hdata in K. exact K.
Qed.

Lemma search_without_results_is_no_match_witness :
  fst (_update_item world_record updater home_video initial_state)
  = Ok ("Holiday 2019", "No TMDB match found").
Proof.
  destruct (search_without_results_is_no_match world_record updater home_video
              initial_state matrix_record
              (snd (make_tmdb_request world_record updater "search/tv"
                      [("query", PStr "Holiday 2019"); ("year", PNone)] [] initial_state)))
    as [_ [Hrun _]].
  - intros g [].
  - reflexivity.
  - right. left. exists [("id", JNum 603); ("overview", JStr "A hacker learns the truth.")].
    split; reflexivity.
  - rewrite Hrun. reflexivity.
Defined.

(** X15. A search whose response is a JSON value other than an object (and
    not an empty one) makes resolution raise [AttributeError]; the worker
    reports "Error: " with its message and writes nothing. *)
Theorem search_with_malformed_response_is_error :
  forall W self item s response s1,
    (forall g, In g (guids item) -> PyStr.contains "tmdb" g = false) ->
    make_tmdb_request W self (req_endpoint (search_call item))
      (req_params (search_call item)) [] s = (Ok response, s1) ->
    Py.truthy response = true ->
    (forall fields, response <> JObj fields) ->
    exists msg,
      _get_tmdb_data W self item s = (Raise (AttributeError msg), s1)
      /\ _update_item W self item s = (Ok (title item, "Error: " ++ msg), s1)
      /\ edit_log s1 = edit_log s.
Proof.
  intros W self item s response s1 Hnone Hreq Ht Hshape.
  assert (Hfirst : exists msg, first_result response = Raise (AttributeError msg)).
  { unfold first_result. rewrite Ht.
    destruct response; try (eexists; reflexivity).
    exfalso. exact (Hshape fields eq_refl). }
  destruct Hfirst as [msg Hfirst]. exists msg.
  assert (Hdata : _get_tmdb_data W self item s = (Raise (AttributeError msg), s1)).
  { rewrite (_get_tmdb_data_search W self item s Hnone), _search_tmdb_unfold, Hreq, Hfirst.
    reflexivity. }
  split; [exact Hdata | split].
  - exact (_update_item_of_raise W self item s _ s1
             (try_raises_in_resolution W self item s _ s1 Hdata)).
  - pose proof (_get_tmdb_data_keeps_edit_log W self item s) as K.
    rewrite Hdata in K. exact K.
Qed.

Lemma search_with_malformed_response_is_error_witness :
  fst (_update_item world_array updater home_video initial_state)
  = Ok ("Holiday 2019", "Error: 'list' object has no attribute 'get'").
Proof.
  destruct (search_with_malformed_response_is_error world_array updater home_video
              initial_state (JList [JNum 1])
              (snd (make_tmdb_request world_array updater "search/tv"
                      [("query", PStr "Holiday 2019"); ("year", PNone)] [] initial_state)))
    as [msg [Hdata [Hrun _]]].
  - intros g [].
  - reflexivity.
  - reflexivity.
  - intros fields H. discriminate H.
  - rewrite Hrun. simpl.
    assert (Hmsg : AttributeError msg = AttributeError "'list' object has no attribute 'get'")
      by (injection Hdata as Hd; rewrite <- Hd; reflexivity).
    injection Hmsg as ->. reflexivity.
Defined.

(** ** Reconciling again *)

Section Repeat.

Variable W : World.
Variable self : PlexSummaryUpdater.

(** Resolution reads the guids, the kind, the title and the year of an item,
    not its summary. *)
Lemma _get_tmdb_data_with_summary item text s :
  _get_tmdb_data W self (with_summary item text) s = _get_tmdb_data W self item s.
Proof. reflexivity. Qed.

(** A request that returned, issued again on the cache it left, returns the
    same value without a transport call. *)
Lemma make_tmdb_request_repeats endpoint params s v s1 s2 :
  make_tmdb_request W self endpoint params [] s = (Ok v, s1) ->
  cache s2 = cache s1 ->
  exists s3,
    make_tmdb_request W self endpoint params [] s2 = (Ok v, s3)
    /\ http_log s3 = http_log s2
    /\ edit_log s3 = edit_log s2.
Proof.
  intros Hrun Hcache.
  pose proof (cached_at_get _ _ _ _ (make_tmdb_request_caches W self _ _ _ _ _ Hrun)) as Hget.
  rewrite <- Hcache in Hget.
  destruct (make_tmdb_request_hit W self endpoint params s2 v Hget) as [Hval Hlog].
  pose proof (make_tmdb_request_keeps_edit_log W self endpoint params [] s2) as Hedit.
  destruct (make_tmdb_request W self endpoint params [] s2) as [r s3].
  simpl in *. subst r. exists s3. repeat split; assumption.
Qed.

Lemma _get_tmdb_data_repeats item s v s1 s2 :
  _get_tmdb_data W self item s = (Ok v, s1) ->
  cache s2 = cache s1 ->
  exists s3,
    _get_tmdb_data W self item s2 = (Ok v, s3)
    /\ http_log s3 = http_log s2
    /\ edit_log s3 = edit_log s2.
Proof.
  assert (Hsearch : _search_tmdb W self item s = (Ok v, s1) ->
                    cache s2 = cache s1 ->
                    exists s3,
                      _search_tmdb W self item s2 = (Ok v, s3)
                      /\ http_log s3 = http_log s2 /\ edit_log s3 = edit_log s2).
  { rewrite !_search_tmdb_unfold.
    destruct (make_tmdb_request W self _ _ [] s) as [[response | e] s0] eqn:Hreq;
      [ | discriminate].
    intros [= Hfirst <-] Hcache.
    destruct (make_tmdb_request_repeats _ _ _ _ _ _ Hreq Hcache) as [s3 [Hrep Hlogs]].
    exists s3. rewrite Hrep, Hfirst. split; [reflexivity | exact Hlogs]. }
  unfold _get_tmdb_data. destruct (_get_tmdb_id item) as [tmdb_id | ]; [ | exact Hsearch].
  destruct (tmdb_id =? ""); [exact Hsearch | ].
  apply make_tmdb_request_repeats.
Qed.

(** What has happened when [_update_item] reports "Updated". *)
Lemma _update_item_updated_inv item s t s1 :
  _update_item W self item s = (Ok (t, "Updated"), s1) ->
  exists data s0 ov,
    _get_tmdb_data W self item s = (Ok data, s0)
    /\ Py.truthy data = true
    /\ Py.getitem data "overview" = Ok ov
    /\ cache s1 = cache s0
    /\ http_log s1 = http_log s0
    /\ edit_log s1 = (item, ov) :: edit_log s0.
Proof.
  unfold _update_item, try_except, _update_item_try, bind, lift, ret, edit_summary.
  destruct (_get_tmdb_data W self item s) as [[data | e] s0]; [ | discriminate].
  destruct (Py.truthy data) eqn:Ht; cbn [negb]; [ | discriminate].
  destruct (Py.getitem data "overview") as [ov | e] eqn:Hg; [ | discriminate].
  destruct (Py.str_ne (summary item) ov); [ | discriminate].
  destruct (plex_edit W (length (edit_log s0)) item ov); [discriminate | ].
  intros [= _ <-]. exists data, s0, ov. repeat split; assumption.
Qed.

End Repeat.

(** X16. Reconciling is idempotent.  After [_update_item] has reported
    "Updated" for a write of the text [text], reconciling the item as Plex
    now holds it, with [text] as summary, reports "No change needed": the
    record comes from the cache, without transport call, and nothing is
    written. *)
Theorem reconcile_after_update_changes_nothing :
  forall W self item s text s1,
    _update_item W self item s = (Ok (title item, "Updated"), s1) ->
    edit_log s1 = (item, JStr text) :: edit_log s ->
    exists s2,
      _update_item W self (with_summary item text) s1
      = (Ok (title item, "No change needed"), s2)
      /\ http_log s2 = http_log s1
      /\ edit_log s2 = edit_log s1.
Proof.
  intros W self item s text s1 Hrun Hlog.
  destruct (_update_item_updated_inv W self item s _ s1 Hrun)
    as [data [s0 [ov [Hdata [Ht [Hg [Hcache [_ Hedit]]]]]]]].
  pose proof (_get_tmdb_data_keeps_edit_log W self item s) as K.
  rewrite Hdata in K. cbn [snd] in K.
  rewrite Hedit, K in Hlog. injection Hlog as ->.
  destruct (_get_tmdb_data_repeats W self item s data s0 s1 Hdata Hcache)
    as [s2 [Hrep [Hhttp Hedit2]]].
  exists s2. split; [ | split; assumption].
  apply _update_item_of_ok.
  unfold _update_item_try, bind, lift.
  rewrite _get_tmdb_data_with_summary, Hrep, Ht, Hg. cbn [negb with_summary summary Py.str_ne].
  rewrite String.eqb_refl. reflexivity.
Qed.

Lemma reconcile_after_update_changes_nothing_witness :
  fst (_update_item world_record updater
         (with_summary matrix_stale "A hacker learns the truth.")
         (snd (_update_item world_record updater matrix_stale initial_state)))
  = Ok ("The Matrix", "No change needed").
Proof.
  destruct (reconcile_after_update_changes_nothing world_record updater matrix_stale
              initial_state "A hacker learns the truth."
              (snd (_update_item world_record updater matrix_stale initial_state))
              eq_refl eq_refl) as [s2 [Hrun _]].
  rewrite Hrun. reflexivity.
Defined.

(** ** The end of a run *)

Lemma update_library_loop_returns W self sections :
  (0 < max_workers (config self))%Z ->
  Forall readable sections ->
  forall s, exists s', update_library_loop W self sections s = (Ok tt, s').
Proof.
  intros Hpos Hread. induction Hread as [ | section rest Hsec Hrest IH]; intros s.
  - exists s. reflexivity.
  - cbn [update_library_loop]. unfold readable, supported in Hsec.
    destruct ((section_type section =? "movie") || (section_type section =? "show"));
      cbn [negb]; [ | apply IH].
    destruct (Hsec eq_refl) as [media_items Hall].
    unfold bind.
    destruct (_process_section_results W self section media_items s Hall Hpos)
      as [outcomes [s1 [Hrun _]]].
    rewrite Hrun.
    destruct (combine (map title (as_completed W media_items)) outcomes);
      [apply IH | ].
    unfold _log_results. apply IH.
Qed.

(** The loop stops at the first section of movies or shows that cannot be
    enumerated. *)
Lemma update_library_loop_unreadable W self before bad after e :
  (0 < max_workers (config self))%Z ->
  Forall readable before ->
  supported bad = true ->
  section_all bad = inl e ->
  forall s, exists s',
    update_library_loop W self (before ++ bad :: after) s = (Raise e, s').
Proof.
  intros Hpos Hread Hsup Hbad. induction Hread as [ | section rest Hsec Hrest IH]; intros s.
  - cbn [app update_library_loop]. unfold supported in Hsup. rewrite Hsup. cbn [negb].
    unfold bind. rewrite (_process_section_unreadable W self bad e s Hbad).
    exists s. reflexivity.
  - cbn [app update_library_loop]. unfold readable, supported in Hsec.
    destruct ((section_type section =? "movie") || (section_type section =? "show"));
      cbn [negb]; [ | apply IH].
    destruct (Hsec eq_refl) as [media_items Hall].
    unfold bind.
    destruct (_process_section_results W self section media_items s Hall Hpos)
      as [outcomes [s1 [Hrun _]]].
    rewrite Hrun.
    destruct (combine (map title (as_completed W media_items)) outcomes);
      [apply IH | ].
    unfold _log_results. apply IH.
Qed.

(** The run of [main()] once the module-level connection is made, the
    configuration is complete and the constructor has connected. *)
Lemma run_script_after_startup W env s server server' :
  plex_connect W (connect_count s) (PLEX_URL env) (PLEX_TOKEN env) = inr server ->
  empty_required
    (Config_defaults (getenv_default (PLEX_URL env)) (getenv_default (PLEX_TOKEN env))
                     (getenv_default (TMDB_API_KEY env))) = [] ->
  plex_connect W (S (connect_count s)) (Some (getenv_default (PLEX_URL env)))
               (Some (getenv_default (PLEX_TOKEN env))) = inr server' ->
  exists updater s0,
    config updater
    = Config_defaults (getenv_default (PLEX_URL env)) (getenv_default (PLEX_TOKEN env))
                      (getenv_default (TMDB_API_KEY env))
    /\ plex updater = server'
    /\ run_script W env s
       = match update_library W updater s0 with
         | (Ok _, s') => (ExitNormally, s')
         | (Raise e, s') => (SystemExit ("Error: " ++ str e), s')
         end.
Proof.
  intros Hconn Hok Hconn'.
  set (cfg := Config_defaults _ _ _) in *.
  unfold run_script, PlexServer. rewrite Hconn.
  set (s0 := mkState _ _ _ _ _ _ _).
  destruct (validate_config_lists_the_empty_fields cfg s0) as [_ Hval].
  unfold main, main_body, bind, PlexSummaryUpdater__init__, bind. fold cfg.
  rewrite Hval, Hok.
  unfold _init_plex, try_except, PlexServer. subst s0. cbn [connect_count].
  change (plex_url cfg) with (getenv_default (PLEX_URL env)).
  change (plex_token cfg) with (getenv_default (PLEX_TOKEN env)).
  rewrite Hconn'. cbn [ret].
  eexists (mkUpdater cfg server' (_init_tmdb_session cfg)), _.
  split; [reflexivity | split; reflexivity].
Qed.

(** X17. Once both connections to Plex are made with a complete
    configuration, the sections are listed and every section of movies or
    shows is enumerated, the process ends normally, with exit status 0,
    whatever happens to the items: no failure of a request or of a write
    changes how the run ends. *)
Theorem run_script_exits_normally_whatever_the_items :
  forall W env s server server' sections,
    plex_connect W (connect_count s) (PLEX_URL env) (PLEX_TOKEN env) = inr server ->
    empty_required
      (Config_defaults (getenv_default (PLEX_URL env)) (getenv_default (PLEX_TOKEN env))
                       (getenv_default (TMDB_API_KEY env))) = [] ->
    plex_connect W (S (connect_count s)) (Some (getenv_default (PLEX_URL env)))
                 (Some (getenv_default (PLEX_TOKEN env))) = inr server' ->
    library_sections server' = inr sections ->
    Forall readable sections ->
    exists s',
      run_script W env s = (ExitNormally, s')
      /\ exit_code (fst (run_script W env s)) = 0%Z.
Proof.
  intros W env s server server' sections Hconn Hok Hconn' Hlist Hread.
  destruct (run_script_after_startup W env s server server' Hconn Hok Hconn')
    as [updater [s0 [Hcfg [Hplex Hrun]]]].
  rewrite Hrun. unfold update_library, bind, lift. rewrite Hplex, Hlist.
  assert (Hpos : (0 < max_workers (config updater))%Z) by (rewrite Hcfg; reflexivity).
  destruct (update_library_loop_returns W updater sections Hpos Hread s0) as [s' Hloop].
  rewrite Hloop. exists s'. split; reflexivity.
Qed.

Lemma run_script_exits_normally_whatever_the_items_witness :
  fst (run_script world_tmdb_down env_complete initial_state) = ExitNormally.
Proof.
  destruct (run_script_exits_normally_whatever_the_items world_tmdb_down env_complete
              initial_state (mkServer (inr [movies])) (mkServer (inr [movies])) [movies]
              eq_refl eq_refl eq_refl eq_refl) as [s' [Hrun _]].
  - repeat constructor. intros _. eexists. reflexivity.
  - rewrite Hrun. reflexivity.
Defined.

(** X18. A failure of Plex to list its sections, or to enumerate a section
    of movies or shows, is fatal: the process ends with exit status 1 and the
    message "Error: " followed by the message of the exception.  When the
    listing fails, nothing has been requested or written. *)
Theorem run_script_reports_enumeration_failure :
  forall W env s server server' e,
    plex_connect W (connect_count s) (PLEX_URL env) (PLEX_TOKEN env) = inr server ->
    empty_required
      (Config_defaults (getenv_default (PLEX_URL env)) (getenv_default (PLEX_TOKEN env))
                       (getenv_default (TMDB_API_KEY env))) = [] ->
    plex_connect W (S (connect_count s)) (Some (getenv_default (PLEX_URL env)))
                 (Some (getenv_default (PLEX_TOKEN env))) = inr server' ->
    (library_sections server' = inl e ->
       exists s',
         run_script W env s = (SystemExit ("Error: " ++ str e), s')
         /\ exit_code (fst (run_script W env s)) = 1%Z
         /\ request_log s' = request_log s
         /\ edit_log s' = edit_log s)
    /\ (forall before bad after,
          library_sections server' = inr (before ++ bad :: after)%list ->
          Forall readable before ->
          supported bad = true ->
          section_all bad = inl e ->
          exists s',
            run_script W env s = (SystemExit ("Error: " ++ str e), s')
            /\ exit_code (fst (run_script W env s)) = 1%Z).
Proof.
  intros W env s server server' e Hconn Hok Hconn'.
  split.
  - intros Hlist.
    set (cfg := Config_defaults _ _ _) in *.
    unfold run_script, PlexServer. rewrite Hconn.
    set (s0 := mkState _ _ _ _ _ _ _).
    destruct (validate_config_lists_the_empty_fields cfg s0) as [_ Hval].
    unfold main, main_body, bind, PlexSummaryUpdater__init__, bind. fold cfg.
    rewrite Hval, Hok.
    unfold _init_plex, try_except, PlexServer. subst s0. cbn [connect_count].
    change (plex_url cfg) with (getenv_default (PLEX_URL env)).
    change (plex_token cfg) with (getenv_default (PLEX_TOKEN env)).
    rewrite Hconn'. cbn [ret].
    unfold update_library, bind, lift. cbn [plex]. rewrite Hlist.
    eexists. repeat split.
  - intros before bad after Hlist Hread Hsup Hbad.
    destruct (run_script_after_startup W env s server server' Hconn Hok Hconn')
      as [updater [s0 [Hcfg [Hplex Hrun]]]].
    rewrite Hrun. unfold update_library, bind, lift. rewrite Hplex, Hlist.
    assert (Hpos : (0 < max_workers (config updater))%Z) by (rewrite Hcfg; reflexivity).
    destruct (update_library_loop_unreadable W updater before bad after e Hpos Hread
                Hsup Hbad s0) as [s' Hloop].
    rewrite Hloop. exists s'. split; reflexivity.
Qed.

Lemma run_script_reports_enumeration_failure_witness :
  fst (run_script world_unlisted env_complete initial_state)
    = SystemExit "Error: Read timed out"
  /\ fst (run_script world_unreadable_section env_complete initial_state)
    = SystemExit "Error: Read timed out".
Proof.
  split.
  - destruct (run_script_reports_enumeration_failure world_unlisted env_complete
                initial_state
                (mkServer (inl (OtherException "requests.exceptions.ReadTimeout"
                                               "Read timed out")))
                (mkServer (inl (OtherException "requests.exceptions.ReadTimeout"
                                               "Read timed out")))
                (OtherException "requests.exceptions.ReadTimeout" "Read timed out")
                eq_refl eq_refl eq_refl) as [Hlist _].
    destruct (Hlist eq_refl) as [s' [Hrun _]]. rewrite Hrun. reflexivity.
  - destruct (run_script_reports_enumeration_failure world_unreadable_section env_complete
                initial_state
                (mkServer (inr [movies; shows_unreadable]))
                (mkServer (inr [movies; shows_unreadable]))
                (OtherException "requests.exceptions.ReadTimeout" "Read timed out")
                eq_refl eq_refl eq_refl) as [_ Hsection].
    destruct (Hsection [movies] shows_unreadable [] eq_refl) as [s' [Hrun _]].
    + repeat constructor. intros _. eexists. reflexivity.
    + reflexivity.
    + reflexivity.
    + rewrite Hrun. reflexivity.
Defined.
